(** * CypherCraft: a shallow embedding of the password analyzer, the secure
    generator and the breach checker, with the properties of its specification.

    The three Python modules [utils/entropy.py], [utils/generator.py] and
    [utils/hash_utils.py] are translated function by function, and so are
    the request models and routes of [app.py].  Python values are modelled
    as follows.
    - A [str] is the list of its Unicode code points ([pystr]).
    - An [int] is a [Z]; a [float] is a binary64 number of the kernel
      ([PrimFloat.float]), so comparisons and arithmetic round as CPython's do.
    - Exceptions are values of [exn]; a call that may raise returns a [result].
    - The [secrets] module draws from an explicit [source] of raw numbers.
    - The HTTP collaborator is an explicit event of the [io] type.
    - What the interpreter and the C library decide is a parameter: [repr]
      of a string, and the functions [log2], [log10] and [pow] of [math].

    The definitions come first, module by module; the properties follow in
    the same order. *)

From Stdlib Require Import ZArith NArith List Ascii String Floats Lia.
From stdpp Require Import gmap strings list.

Set Warnings "-inexact-float".

(* ===================================================================== *)
(** * Python values *)
(* ===================================================================== *)

(** A Python [str]: the sequence of its code points. *)
Abbreviation pystr := (list N).

(** The code points of an ASCII literal. *)
Fixpoint py (s : string) : pystr :=
  match s with
  | EmptyString => []
  | String a s' => N_of_ascii a :: py s'
  end.

(** The values an options dict of the request layer carries. *)
Inductive pyval :=
| PyNone
| PyBool (b : bool)
| PyInt (z : Z)
| PyStr (s : pystr).

Global Instance pyval_eq_dec : EqDecision pyval.
Proof. solve_decision. Defined.

(** The exceptions the modelled calls raise, each with the text [str(e)]
    gives.  All of them are subclasses of [Exception]. *)
Inductive exn :=
| ValueError (msg : pystr)
| IndexError (msg : pystr)
| TypeError (msg : pystr)
| UnicodeEncodeError (msg : pystr)
| TimeoutException (msg : pystr)
| HTTPStatusError (status_code : Z) (msg : pystr)
| TransportError (msg : pystr).

Inductive result (A : Type) :=
| Ok (a : A)
| Raise (e : exn).
Arguments Ok {A} a.
Arguments Raise {A} e.

(** Truth value of an object, as [if x:] tests it. *)
Definition truthy (v : pyval) : bool :=
  match v with
  | PyNone => false
  | PyBool b => b
  | PyInt z => negb (z =? 0)%Z
  | PyStr s => negb (bool_decide (s = []))
  end.

Definition type_name (v : pyval) : pystr :=
  match v with
  | PyNone => py "NoneType"
  | PyBool _ => py "bool"
  | PyInt _ => py "int"
  | PyStr _ => py "str"
  end.

(** The integer an object is when [min] and [max] compare it with an int:
    [bool] is a subclass of [int]; [None] and [str] do not order against an
    int, and the comparison raises. *)
Definition as_int (v : pyval) : result Z :=
  match v with
  | PyInt z => Ok z
  | PyBool b => Ok (if b then 1 else 0)%Z
  | _ => Raise (TypeError (py "'<' not supported between instances of '"
                            ++ type_name v ++ py "' and 'int'"))
  end.

(** ** [str] methods *)

(** Decimal digits of a natural number, most significant first; the fuel
    bounds the number of digits. *)
Fixpoint decimal_go (fuel : nat) (n : N) : pystr :=
  match fuel with
  | O => []
  | S fuel' =>
      (if (n <? 10)%N then [] else decimal_go fuel' (n / 10)%N)
      ++ [(48 + n mod 10)%N]
  end.

(** [str(n)] for a non-negative int. *)
Definition decimal (n : N) : pystr := decimal_go (S (N.to_nat (N.log2 n))) n.

(** [str(z)] for an int. *)
Definition str_int (z : Z) : pystr :=
  if (z <? 0)%Z then py "-" ++ decimal (Z.to_N (- z)) else decimal (Z.to_N z).

(** [str.isspace] of one character: the code points CPython's
    [_PyUnicode_IsWhitespace] lists. *)
Definition isspace (c : N) : bool :=
  bool_decide (c ∈ [9; 10; 11; 12; 13; 28; 29; 30; 31; 32; 133; 160; 5760;
                    8192; 8193; 8194; 8195; 8196; 8197; 8198; 8199; 8200;
                    8201; 8202; 8232; 8233; 8239; 8287; 12288]%N).

(** The string without the leading characters of the class [space]. *)
Fixpoint lstrip (space : N → bool) (s : pystr) : pystr :=
  match s with
  | c :: s' => if space c then lstrip space s' else s
  | [] => []
  end.

(** The string without the characters of [space] at either end. *)
Definition strip_of (space : N → bool) (s : pystr) : pystr :=
  rev (lstrip space (rev (lstrip space s))).

(** [s.strip()] *)
Definition strip (s : pystr) : pystr := strip_of isspace s.

(** A line boundary of [str.splitlines]: the code points CPython's
    [_PyUnicode_IsLinebreak] lists. *)
Definition is_linebreak (c : N) : bool :=
  bool_decide (c ∈ [10; 11; 12; 13; 28; 29; 30; 133; 8232; 8233]%N).

(** [splitlines] with the current line accumulated in reverse; a carriage
    return followed by a line feed is one boundary. *)
Fixpoint splitlines_from (cur : pystr) (s : pystr) : list pystr :=
  match s with
  | [] => match cur with [] => [] | _ :: _ => [rev cur] end
  | c :: s' =>
      if is_linebreak c then
        match s' with
        | c' :: s'' =>
            if bool_decide (c = 13%N) && bool_decide (c' = 10%N)
            then rev cur :: splitlines_from [] s''
            else rev cur :: splitlines_from [] s'
        | [] => rev cur :: splitlines_from [] s'
        end
      else splitlines_from (c :: cur) s'
  end.

(** [s.splitlines()] *)
Definition splitlines (s : pystr) : list pystr := splitlines_from [] s.

(** [s.split(sep)] for a separator of one character, the current part
    accumulated in reverse. *)
Fixpoint split_from (sep : N) (cur : pystr) (s : pystr) : list pystr :=
  match s with
  | [] => [rev cur]
  | c :: s' =>
      if bool_decide (c = sep) then rev cur :: split_from sep [] s'
      else split_from sep (c :: cur) s'
  end.

Definition split (sep : N) (s : pystr) : list pystr := split_from sep [] s.

(** The ASCII part of [str.upper]; it is applied to hexadecimal digits only. *)
Definition upper (s : pystr) : pystr :=
  map (λ c, if (97 <=? c)%N && (c <=? 122)%N then (c - 32)%N else c) s.

(** ** [int(s)] *)

Definition is_digit (c : N) : bool := (48 <=? c)%N && (c <=? 57)%N.

(** The white space [int] skips around a literal: the ASCII white space of
    C, and the white space beyond ASCII; the separators 28 to 31, which
    [str.strip] removes, are not skipped. *)
Definition int_space (c : N) : bool :=
  isspace c && negb ((28 <=? c)%N && (c <=? 31)%N).

(** The digits of a base 10 literal, single underscores allowed between
    digits; [prev] tells that the previous character was a digit. *)
Fixpoint int_digits (acc : Z) (prev : bool) (s : pystr) : option Z :=
  match s with
  | [] => if prev then Some acc else None
  | c :: s' =>
      if is_digit c then int_digits (10 * acc + Z.of_N (c - 48)) true s'
      else if bool_decide (c = 95%N) && prev then int_digits acc false s'
      else None
  end.

(** The default of [sys.set_int_max_str_digits]. *)
Definition int_max_str_digits : nat := 4300.

Section Interpreter.

(** [repr] of a [str].  Which characters it escapes depends on the Unicode
    tables of the interpreter, so it is a parameter; it only appears in the
    text of the [ValueError] of [int]. *)
Variable repr : pystr → pystr.

(** [int(s)] for the literals written with ASCII digits; the decimal digits
    of other scripts, which [int] accepts as well, are rejected here. *)
Definition py_int (s : pystr) : result Z :=
  let literal := strip_of int_space s in
  let '(negative, body) :=
    match literal with
    | c :: body =>
        if bool_decide (c = 43%N) then (false, body)
        else if bool_decide (c = 45%N) then (true, body)
        else (false, literal)
    | [] => (false, literal)
    end in
  match int_digits 0 false body with
  | None =>
      Raise (ValueError (py "invalid literal for int() with base 10: "
                           ++ repr s))
  | Some z =>
      let n := length (filter (λ c, is_digit c = true) body) in
      if decide (int_max_str_digits < n) then
        Raise (ValueError
                 (py "Exceeds the limit (4300 digits) for integer string "
                  ++ py "conversion: value has " ++ decimal (N.of_nat n)
                  ++ py " digits; use sys.set_int_max_str_digits() "
                  ++ py "to increase the limit"))
      else Ok (if negative then - z else z)%Z
  end.

End Interpreter.

(* ===================================================================== *)
(** * entropy.py *)
(* ===================================================================== *)

(** ** Numbers

    A Python number of this module is an [int] or a [float]. *)
Inductive number :=
| Int (z : Z)
| Float (f : float).

(** [float(z)]: the binary64 number nearest to [z], ties to even. *)
Definition float_of_int (z : Z) : float :=
  SF2Prim (binary_normalize prec emax z 0 false).

Definition to_float (x : number) : float :=
  match x with
  | Int z => float_of_int z
  | Float f => f
  end.

(** [a < b], [a <= b] and [a != b].  An int meets a float here only as zero or
    as a small literal, which [float_of_int] converts exactly. *)
Definition num_lt (a b : number) : bool :=
  match a, b with
  | Int x, Int y => (x <? y)%Z
  | _, _ => (to_float a <? to_float b)%float
  end.

Definition num_le (a b : number) : bool :=
  match a, b with
  | Int x, Int y => (x <=? y)%Z
  | _, _ => (to_float a <=? to_float b)%float
  end.

Definition num_ne (a b : number) : bool :=
  match a, b with
  | Int x, Int y => negb (x =? y)%Z
  | _, _ => negb (to_float a =? to_float b)%float
  end.

(** [a / b] for a divisor that is not zero. *)
Definition truediv (a b : number) : float :=
  (to_float a / to_float b)%float.

(** The integer nearest to [num / den], ties to even, for a positive [den]. *)
Definition round_half_even (num den : Z) : Z :=
  let q := (num / den)%Z in
  match (2 * (num mod den) ?= den)%Z with
  | Lt => q
  | Gt => (q + 1)%Z
  | Eq => if Z.even q then q else (q + 1)%Z
  end.

(** The sign of a finite [x] and the integer nearest to its magnitude times
    [10 ^ ndigits], ties to even, computed on the exact value of [x]. *)
Definition scaled (ndigits : nat) (x : float) : option (bool * Z) :=
  match Prim2SF x with
  | S754_zero s => Some (s, 0%Z)
  | S754_finite s m e =>
      let p := (10 ^ Z.of_nat ndigits)%Z in
      Some (s, if (0 <=? e)%Z then (Z.pos m * p * 2 ^ e)%Z
               else round_half_even (Z.pos m * p) (2 ^ (- e)))
  | _ => None
  end.

(** [round(x, ndigits)] on a float: the float nearest to the decimal that is
    nearest to [x]; zeros, infinities and NaN round to themselves. *)
Definition round_float (ndigits : nat) (x : float) : float :=
  match scaled ndigits x with
  | Some (s, Z.pos k) =>
      SF2Prim (SFdiv prec emax (S754_finite s k 0)
                 (S754_finite false (Z.to_pos (10 ^ Z.of_nat ndigits)) 0))
  | Some (s, _) => if s then (-0)%float else 0%float
  | None => x
  end.

(** [round(x, ndigits)]: an int is its own rounding. *)
Definition round (x : number) (ndigits : nat) : number :=
  match x with
  | Int z => Int z
  | Float f => Float (round_float ndigits f)
  end.

(** The format specification [.Nf] applied to a float. *)
Definition format_f (precision : nat) (x : float) : pystr :=
  match scaled precision x with
  | Some (s, k) =>
      let p := (10 ^ Z.of_nat precision)%Z in
      let fraction := decimal (Z.to_N (k mod p)) in
      (if s then py "-" else [])
      ++ decimal (Z.to_N (k / p))
      ++ match precision with
         | O => []
         | S _ =>
             py "." ++ replicate (precision - length fraction) 48%N
             ++ fraction
         end
  | None =>
      if is_nan x then py "nan"
      else if get_sign x then py "-inf" else py "inf"
  end.

(** ** The [math] module

    The three functions of the C library the analyzer calls.  [math.log2]
    is called on a positive int, [math.log10] on the literals 2 and 10**10,
    and [**] with base 10 on an exponent that is not above 30: on these the
    calls return, so the functions are taken as total. *)
Record libm := {
  log2 : float → float;
  log10 : float → float;
  pow : float → float → float
}.

(** ** Constants *)

Definition GUESSES_PER_SECOND : Z := 10000000000.

(** ** [_get_charset_size] *)

Definition is_lower (c : N) : bool := (97 <=? c)%N && (c <=? 122)%N.
Definition is_upper (c : N) : bool := (65 <=? c)%N && (c <=? 90)%N.
(** [[^a-zA-Z0-9]] *)
Definition is_other (c : N) : bool :=
  negb (is_lower c || is_upper c || is_digit c).

(** [re.search] of a character class: some character of the string is in
    the class. *)
Definition search (class : N → bool) (s : pystr) : bool := existsb class s.

Definition _get_charset_size (password : pystr) : Z :=
  let charset := 0%Z in
  let charset :=
    if search is_lower password then (charset + 26)%Z else charset in
  let charset :=
    if search is_upper password then (charset + 26)%Z else charset in
  let charset :=
    if search is_digit password then (charset + 10)%Z else charset in
  let charset :=
    if search is_other password then (charset + 32)%Z else charset in
  charset.

(** ** [_format_crack_time] *)

Definition _format_crack_time (seconds : number) : pystr :=
  if num_lt seconds (Float 0.001) then py "Instantly"
  else if num_lt seconds (Int 1) then py "Less than a second"
  else if num_lt seconds (Int 60) then
    format_f 1 (to_float seconds) ++ py " seconds"
  else if num_lt seconds (Int 3600) then
    format_f 1 (truediv seconds (Int 60)) ++ py " minutes"
  else if num_lt seconds (Int 86400) then
    format_f 1 (truediv seconds (Int 3600)) ++ py " hours"
  else if num_lt seconds (Int 31536000) then
    format_f 1 (truediv seconds (Int 86400)) ++ py " days"
  else
    let years := Float (truediv seconds (Int 31536000)) in
    if num_lt years (Int 100) then format_f 1 (to_float years) ++ py " years"
    else if num_lt years (Int 10000) then
      format_f 0 (truediv years (Int 100)) ++ py " centuries"
    else py "Virtually uncrackable".

(** ** [_get_strength_label] *)

Record Strength := { label : pystr; color : pystr }.

Definition _get_strength_label (entropy : number) : Strength :=
  if num_lt entropy (Int 28) then
    {| label := py "Very Weak"; color := py "#ef4444" |}
  else if num_lt entropy (Int 36) then
    {| label := py "Weak"; color := py "#f97316" |}
  else if num_lt entropy (Int 60) then
    {| label := py "Moderate"; color := py "#eab308" |}
  else if num_lt entropy (Int 80) then
    {| label := py "Strong"; color := py "#22c55e" |}
  else
    {| label := py "Very Strong"; color := py "#06b6d4" |}.

(** ** [analyze_password] *)

Record Policy := {
  min_length : bool;
  has_uppercase : bool;
  has_lowercase : bool;
  has_number : bool;
  has_symbol : bool
}.

Module AnalysisResult.
Record t := {
  length : Z;
  charset_size : Z;
  entropy : number;
  crack_time : pystr;
  crack_time_seconds : number;
  strength : Strength;
  policy : Policy
}.
End AnalysisResult.

Section Analyzer.

Variable math : libm.

Definition analyze_password (password : pystr) : AnalysisResult.t :=
  if bool_decide (password = []) then
    {| AnalysisResult.length := 0;
       AnalysisResult.charset_size := 0;
       AnalysisResult.entropy := Int 0;
       AnalysisResult.crack_time := py "Instantly";
       AnalysisResult.crack_time_seconds := Int 0;
       AnalysisResult.strength :=
         {| label := py "Very Weak"; color := py "#ef4444" |};
       AnalysisResult.policy :=
         {| min_length := false; has_uppercase := false;
            has_lowercase := false; has_number := false;
            has_symbol := false |} |}
  else
    let length := Z.of_nat (List.length password) in
    let charset_size := _get_charset_size password in
    let entropy :=
      if (0 <? charset_size)%Z then
        Float (float_of_int length
               * log2 math (float_of_int charset_size))%float
      else Int 0 in
    let crack_time_seconds :=
      if num_lt (Int 0) entropy then
        let log_combinations :=
          (to_float entropy * log10 math (float_of_int 2))%float in
        let log_guesses := log10 math (float_of_int GUESSES_PER_SECOND) in
        let log_seconds := (log_combinations - log_guesses)%float in
        if num_lt (Int 30) (Float log_seconds) then Float infinity
        else Float (pow math (float_of_int 10) log_seconds)
      else Int 0 in
    {| AnalysisResult.length := length;
       AnalysisResult.charset_size := charset_size;
       AnalysisResult.entropy := round entropy 2;
       AnalysisResult.crack_time := _format_crack_time crack_time_seconds;
       AnalysisResult.crack_time_seconds :=
         if num_ne crack_time_seconds (Float infinity) then crack_time_seconds
         else Int (-1);
       AnalysisResult.strength := _get_strength_label entropy;
       AnalysisResult.policy :=
         {| min_length := (8 <=? length)%Z;
            has_uppercase := search is_upper password;
            has_lowercase := search is_lower password;
            has_number := search is_digit password;
            has_symbol := search is_other password |} |}.

End Analyzer.

(* ===================================================================== *)
(** * generator.py *)
(* ===================================================================== *)

(** ** The [secrets] module

    [secrets] reads the operating system's entropy pool.  The pool is a tape
    of raw numbers and a cursor; a draw below [n] reduces the cell under the
    cursor modulo [n] and advances the cursor, so every value of [[0, n)] is
    the result for some tape. *)
Record source := Source { tape : nat → nat; cursor : nat }.

Definition advance (s : source) : source :=
  {| tape := tape s; cursor := S (cursor s) |}.

(** A computation that draws from the source and may raise. *)
Definition gen (A : Type) : Type := source → result A * source.

Global Instance gen_ret : MRet gen := λ A a s, (Ok a, s).
Global Instance gen_bind : MBind gen := λ A B f m s,
  match m s with
  | (Ok a, s') => f a s'
  | (Raise e, s') => (Raise e, s')
  end.

Definition raise {A} (e : exn) : gen A := λ s, (Raise e, s).

Definition lift {A} (r : result A) : gen A := λ s, (r, s).

(** [secrets.randbelow(n)] *)
Definition randbelow (n : nat) : gen nat :=
  match n with
  | O => raise (ValueError (py "Upper bound must be positive."))
  | S _ => λ s, (Ok (tape s (cursor s) mod n), advance s)
  end.

(** [secrets.choice(seq)] *)
Definition choice {A} (seq : list A) : gen A :=
  match seq with
  | [] => raise (IndexError (py "Cannot choose from an empty sequence"))
  | _ :: _ =>
      i ← randbelow (length seq);
      match seq !! i with
      | Some c => mret c
      | None => raise (IndexError (py "list index out of range"))
      end
  end.

(** [[m for _ in range(n)]] *)
Fixpoint comprehension {A} (n : nat) (m : gen A) : gen (list A) :=
  match n with
  | O => mret []
  | S n' => x ← m; xs ← comprehension n' m; mret (x :: xs)
  end.

(** ** Constants *)

Definition AMBIGUOUS_CHARS : pystr := py "il1Lo0O".

Definition ascii_lowercase : pystr := py "abcdefghijklmnopqrstuvwxyz".
Definition ascii_uppercase : pystr := py "ABCDEFGHIJKLMNOPQRSTUVWXYZ".
Definition digits : pystr := py "0123456789".
(** [string.punctuation]; the second character is the double quote, code 34. *)
Definition punctuation : pystr :=
  py "!" ++ [34%N] ++ py "#$%&'()*+,-./:;<=>?@[\]^_`{|}~".

Definition WORD_LIST : list pystr := map py [
  "apple"; "brave"; "cloud"; "dance"; "eagle"; "flame"; "grace"; "heart";
  "ivory"; "jewel"; "knack"; "lunar"; "maple"; "night"; "ocean"; "pearl";
  "quest"; "river"; "stone"; "tiger"; "umbra"; "vivid"; "whale"; "xenon";
  "yacht"; "zebra"; "amber"; "blaze"; "cedar"; "drift"; "ember"; "frost";
  "globe"; "haven"; "inlet"; "joker"; "karma"; "lemon"; "mirth"; "noble";
  "oasis"; "prism"; "quilt"; "raven"; "solar"; "thorn"; "ultra"; "vigor";
  "wired"; "pixel"; "arrow"; "brisk"; "candy"; "delta"; "elbow"; "fiery";
  "ghost"; "humor"; "index"; "jolly"; "kneel"; "logic"; "metal"; "nerve";
  "orbit"; "pulse"; "quiet"; "roast"; "shark"; "trail"; "unity"; "vault";
  "wagon"; "yield"; "bliss"; "charm"; "dwarf"; "ethos"; "fable"; "glyph";
  "haste"; "irony"; "jazzy"; "kiosk"; "lyric"; "mocha"; "nexus"; "olive";
  "piano"; "reign"; "spice"; "tulip"; "usher"; "viper"; "widow"; "zesty";
  "acorn"; "basin"; "cliff"; "dodge"; "epoch"; "flint"; "grain"; "hydra";
  "image"; "joint"; "kayak"; "libra"; "marsh"; "north"; "omega"; "plume";
  "quota"; "ridge"; "swirl"; "torch"; "urban"; "verge"; "whisk"; "axiom"
]%string.

(** ** [generate_standard] *)

(** [a[i], a[j] = a[j], a[i]]: both reads come first, then the two writes,
    left to right. *)
Definition swap (i j : nat) (a : pystr) : result pystr :=
  match a !! j, a !! i with
  | Some aj, Some ai => Ok (<[j:=ai]> (<[i:=aj]> a))
  | _, _ => Raise (IndexError (py "list index out of range"))
  end.

(** The Fisher-Yates loop [for i in range(len(a) - 1, 0, -1)], entered at [i]. *)
Fixpoint shuffle (i : nat) (password_chars : pystr) : gen pystr :=
  match i with
  | O => mret password_chars
  | S i' =>
      j ← randbelow (i + 1);
      password_chars ← lift (swap i j password_chars);
      shuffle i' password_chars
  end.

Definition generate_standard
    (length : Z) (uppercase lowercase numbers symbols exclude_ambiguous : bool)
    : gen pystr :=
  let length := Z.max 8 (Z.min 128 length) in
  let pool : pystr := [] in
  let required : pystr := [] in
  '(pool, required) ←
    (if lowercase then
       let chars := ascii_lowercase in
       let chars := if exclude_ambiguous
                    then filter (λ c, c ∉ AMBIGUOUS_CHARS) chars else chars in
       c ← choice chars; mret (pool ++ chars, required ++ [c])
     else mret (pool, required));
  '(pool, required) ←
    (if uppercase then
       let chars := ascii_uppercase in
       let chars := if exclude_ambiguous
                    then filter (λ c, c ∉ AMBIGUOUS_CHARS) chars else chars in
       c ← choice chars; mret (pool ++ chars, required ++ [c])
     else mret (pool, required));
  '(pool, required) ←
    (if numbers then
       let chars := digits in
       let chars := if exclude_ambiguous
                    then filter (λ c, c ∉ AMBIGUOUS_CHARS) chars else chars in
       c ← choice chars; mret (pool ++ chars, required ++ [c])
     else mret (pool, required));
  '(pool, required) ←
    (if symbols then
       let chars := punctuation in
       c ← choice chars; mret (pool ++ chars, required ++ [c])
     else mret (pool, required));
  if bool_decide (pool = []) then
    raise (ValueError (py "At least one character class must be selected."))
  else
    let remaining_length := (length - Z.of_nat (List.length required))%Z in
    filler ← comprehension (Z.to_nat remaining_length) (choice pool);
    let password_chars := required ++ filler in
    shuffle (List.length password_chars - 1) password_chars.

(** ** [generate_pin] and [generate_passphrase] *)

Definition generate_pin (length : Z) : gen pystr :=
  let length := Z.max 4 (Z.min 6 length) in
  comprehension (Z.to_nat length) (choice digits).

(** [sep.join(words)] *)
Fixpoint join (sep : pystr) (words : list pystr) : pystr :=
  match words with
  | [] => []
  | [w] => w
  | w :: ws => w ++ sep ++ join sep ws
  end.

Definition generate_passphrase (word_count : Z) : gen pystr :=
  let word_count := Z.max 3 (Z.min 5 word_count) in
  words ← comprehension (Z.to_nat word_count) (choice WORD_LIST);
  mret (join (py "-") words).

(** ** [generate_password] *)

Record GeneratedSecret := { password : pystr; type : pyval }.

(** [options.get(key, default)] *)
Definition get (options : gmap string pyval) (key : string) (default : pyval)
    : pyval :=
  match options !! key with
  | Some v => v
  | None => default
  end.

(** The arguments are typed where they are first used: a length goes through
    [min] and [max] against int literals on the callee's first line, before any
    draw; a class flag is only ever tested for truth. *)
Definition generate_password (options : gmap string pyval)
    : gen GeneratedSecret :=
  let pw_type := get options "type" (PyStr (py "standard")) in
  password ←
    (if bool_decide (pw_type = PyStr (py "pin")) then
       length ← lift (as_int (get options "length" (PyInt 4)));
       generate_pin length
     else if bool_decide (pw_type = PyStr (py "passphrase")) then
       word_count ← lift (as_int (get options "word_count" (PyInt 4)));
       generate_passphrase word_count
     else
       length ← lift (as_int (get options "length" (PyInt 16)));
       generate_standard length
         (truthy (get options "uppercase" (PyBool true)))
         (truthy (get options "lowercase" (PyBool true)))
         (truthy (get options "numbers" (PyBool true)))
         (truthy (get options "symbols" (PyBool true)))
         (truthy (get options "exclude_ambiguous" (PyBool false))));
  mret {| password := password; type := pw_type |}.

(* ===================================================================== *)
(** * hash_utils.py *)
(* ===================================================================== *)

(** ** [str.encode("utf-8")] *)

Definition is_surrogate (c : N) : bool := (0xD800 <=? c)%N && (c <=? 0xDFFF)%N.

(** The UTF-8 bytes of one code point that is not a surrogate.  A [str] holds
    code points up to 0x10FFFF. *)
Definition utf8_char (c : N) : list Z :=
  let c := Z.of_N c in
  if (c <? 0x80)%Z then [c]
  else if (c <? 0x800)%Z then
    [Z.lor 0xC0 (Z.shiftr c 6); Z.lor 0x80 (Z.land c 0x3F)]
  else if (c <? 0x10000)%Z then
    [Z.lor 0xE0 (Z.shiftr c 12); Z.lor 0x80 (Z.land (Z.shiftr c 6) 0x3F);
     Z.lor 0x80 (Z.land c 0x3F)]
  else
    [Z.lor 0xF0 (Z.shiftr c 18); Z.lor 0x80 (Z.land (Z.shiftr c 12) 0x3F);
     Z.lor 0x80 (Z.land (Z.shiftr c 6) 0x3F); Z.lor 0x80 (Z.land c 0x3F)].

Definition hex_digit (x : Z) : N :=
  if (x <? 10)%Z then Z.to_N (48 + x) else Z.to_N (87 + x).

(** [n] lowercase hexadecimal digits of [x], most significant first. *)
Fixpoint hex (n : nat) (x : Z) : pystr :=
  match n with
  | O => []
  | S n' => hex n' (Z.shiftr x 4) ++ [hex_digit (Z.land x 0xF)]
  end.

(** The number of surrogates a string starts with. *)
Fixpoint surrogate_run (s : pystr) : nat :=
  match s with
  | c :: s' => if is_surrogate c then S (surrogate_run s') else O
  | [] => O
  end.

(** [str(e)] of the [UnicodeEncodeError] for the surrogates at [start .. end_). *)
Definition surrogates_not_allowed (c : N) (start end_ : nat) : pystr :=
  if decide (end_ = S start) then
    py "'utf-8' codec can't encode character '\u" ++ hex 4 (Z.of_N c)
    ++ py "' in position " ++ decimal (N.of_nat start)
    ++ py ": surrogates not allowed"
  else
    py "'utf-8' codec can't encode characters in position "
    ++ decimal (N.of_nat start) ++ py "-" ++ decimal (N.of_nat (end_ - 1))
    ++ py ": surrogates not allowed".

Fixpoint encode_from (pos : nat) (s : pystr) : result (list Z) :=
  match s with
  | [] => Ok []
  | c :: s' =>
      if is_surrogate c then
        Raise (UnicodeEncodeError
                 (surrogates_not_allowed c pos (pos + surrogate_run s)))
      else
        match encode_from (S pos) s' with
        | Ok bytes => Ok (utf8_char c ++ bytes)
        | Raise e => Raise e
        end
  end.

(** [text.encode("utf-8")] *)
Definition encode_utf8 (text : pystr) : result (list Z) := encode_from 0 text.

(** ** [hashlib.sha1]

    SHA-1 as FIPS 180-4 defines it, over bytes and 32-bit words held in [Z]. *)

Definition add32 (a b : Z) : Z := ((a + b) mod 2 ^ 32)%Z.

Definition rotl32 (x n : Z) : Z :=
  Z.lor (Z.shiftl x n mod 2 ^ 32)%Z (Z.shiftr x (32 - n)).

Definition not32 (x : Z) : Z := Z.lxor x 0xFFFFFFFF.

(** The big-endian bytes of [x], [n] of them. *)
Fixpoint to_bytes (n : nat) (x : Z) : list Z :=
  match n with
  | O => []
  | S n' => to_bytes n' (Z.shiftr x 8) ++ [Z.land x 0xFF]
  end.

Definition from_bytes (bytes : list Z) : Z :=
  fold_left (λ acc b, Z.lor (Z.shiftl acc 8) b) bytes 0%Z.

(** The message, a one bit, zero bits up to 56 modulo 64 bytes, and the bit
    length on 8 bytes. *)
Definition sha1_pad (message : list Z) : list Z :=
  let ml := Z.of_nat (length message) in
  message ++ [0x80%Z] ++ replicate (Z.to_nat ((55 - ml) mod 64)) 0%Z
          ++ to_bytes 8 ((8 * ml) mod 2 ^ 64).

(** Consecutive pieces of [n] elements. *)
Fixpoint chunks {A} (fuel n : nat) (l : list A) : list (list A) :=
  match fuel, l with
  | S fuel', _ :: _ => take n l :: chunks fuel' n (drop n l)
  | _, _ => []
  end.

Definition word_at (w : list Z) (t : nat) : Z := nth t w 0%Z.

(** The message schedule, extended by [n] words. *)
Fixpoint schedule (n : nat) (w : list Z) : list Z :=
  match n with
  | O => w
  | S n' =>
      let t := length w in
      schedule n'
        (w ++ [rotl32 (Z.lxor (Z.lxor (word_at w (t - 3)) (word_at w (t - 8)))
                         (Z.lxor (word_at w (t - 14)) (word_at w (t - 16)))) 1])
  end.

Definition sha1_state : Type := Z * Z * Z * Z * Z.

Definition sha1_round (t : nat) (wt : Z) (st : sha1_state) : sha1_state :=
  let '(a, b, c, d, e) := st in
  let '(f, k) :=
    if t <? 20 then
      (Z.lor (Z.land b c) (Z.land (not32 b) d), 0x5A827999%Z)
    else if t <? 40 then
      (Z.lxor (Z.lxor b c) d, 0x6ED9EBA1%Z)
    else if t <? 60 then
      (Z.lor (Z.lor (Z.land b c) (Z.land b d)) (Z.land c d), 0x8F1BBCDC%Z)
    else
      (Z.lxor (Z.lxor b c) d, 0xCA62C1D6%Z) in
  let temp := add32 (add32 (add32 (add32 (rotl32 a 5) f) e) k) wt in
  (temp, a, rotl32 b 30, c, d).

Fixpoint sha1_rounds (t : nat) (w : list Z) (st : sha1_state) : sha1_state :=
  match w with
  | [] => st
  | wt :: w' => sha1_rounds (S t) w' (sha1_round t wt st)
  end.

Definition sha1_block (h : sha1_state) (block : list Z) : sha1_state :=
  let w := schedule 64 (map from_bytes (chunks 16 4 block)) in
  let '(h0, h1, h2, h3, h4) := h in
  let '(a, b, c, d, e) := sha1_rounds 0 w h in
  (add32 h0 a, add32 h1 b, add32 h2 c, add32 h3 d, add32 h4 e).

Definition sha1 (message : list Z) : sha1_state :=
  let padded := sha1_pad message in
  fold_left sha1_block (chunks (length padded) 64 padded)
    (0x67452301, 0xEFCDAB89, 0x98BADCFE, 0x10325476, 0xC3D2E1F0)%Z.

(** [.hexdigest()]: forty lowercase hexadecimal digits. *)
Definition hexdigest (h : sha1_state) : pystr :=
  let '(h0, h1, h2, h3, h4) := h in
  hex 8 h0 ++ hex 8 h1 ++ hex 8 h2 ++ hex 8 h3 ++ hex 8 h4.

(** ** [sha1_hash] *)

Definition sha1_hash (text : pystr) : result pystr :=
  match encode_utf8 text with
  | Ok bytes => Ok (upper (hexdigest (sha1 bytes)))
  | Raise e => Raise e
  end.

(** ** The HTTP collaborator *)

Record request := {
  url : pystr;
  headers : list (pystr * pystr);
  timeout : float
}.

(** What [client.get] comes back with: a response, [httpx.TimeoutException],
    or another exception of the transport, with its text. *)
Inductive http_outcome :=
| Responded (status_code : Z) (text : pystr)
| TimedOut (msg : pystr)
| Failed (msg : pystr).

(** A computation that talks to the collaborator: it returns, or it issues
    a request and goes on with the outcome. *)
Inductive io (A : Type) :=
| Return (a : A)
| HttpGet (r : request) (k : http_outcome → io A).
Arguments Return {A} a.
Arguments HttpGet {A} r k.

(** The requests issued, in order, and the value returned, against a
    collaborator [net]. *)
Fixpoint run {A} (net : request → http_outcome) (m : io A)
    : list request * A :=
  match m with
  | Return a => ([], a)
  | HttpGet r k => let '(trace, a) := run net (k (net r)) in (r :: trace, a)
  end.

Record response := { status_code_of : Z; text_of : pystr }.

(** [response.raise_for_status()]: httpx raises unless the status is 2xx.
    No handler reads the text of this exception; it is left empty. *)
Definition raise_for_status (r : response) : result unit :=
  if (200 <=? status_code_of r)%Z && (status_code_of r <=? 299)%Z
  then Ok tt
  else Raise (HTTPStatusError (status_code_of r) []).

(** ** [check_breach] *)

Definition HIBP_API_URL : pystr := py "https://api.pwnedpasswords.com/range/".

Record BreachResult := {
  breached : bool;
  count : Z;
  error : option pystr
}.

(** [str(e)] *)
Definition exn_str (e : exn) : pystr :=
  match e with
  | ValueError msg | IndexError msg | TypeError msg | UnicodeEncodeError msg
  | TimeoutException msg | HTTPStatusError _ msg | TransportError msg => msg
  end.

(** The GET of the range endpoint for a hash prefix, under the client's
    timeout of ten seconds. *)
Definition range_request (prefix : pystr) : request :=
  {| url := HIBP_API_URL ++ prefix;
     headers := [(py "User-Agent", py "PasswordGuardian-MiniProject")];
     timeout := 10 |}.

Section BreachCheck.

Variable repr : pystr → pystr.

(** The loop over the lines of the response, up to its first [return]. *)
Fixpoint scan (lines : list pystr) (suffix : pystr) : result BreachResult :=
  match lines with
  | [] => Ok {| breached := false; count := 0; error := None |}
  | line :: lines' =>
      match split 58 line with
      | [part0; part1] =>
          if bool_decide (strip part0 = suffix) then
            match py_int repr (strip part1) with
            | Ok n => Ok {| breached := true; count := n; error := None |}
            | Raise e => Raise e
            end
          else scan lines' suffix
      | _ => scan lines' suffix
      end
  end.

(** The body of the [try] block. *)
Definition check_breach_try (password : pystr) : io (result BreachResult) :=
  match sha1_hash password with
  | Raise e => Return (Raise e)
  | Ok full_hash =>
      let prefix := take 5 full_hash in
      let suffix := drop 5 full_hash in
      HttpGet (range_request prefix)
        (λ outcome,
           Return
             match outcome with
             | TimedOut msg => Raise (TimeoutException msg)
             | Failed msg => Raise (TransportError msg)
             | Responded status text =>
                 let response :=
                   {| status_code_of := status; text_of := text |} in
                 match raise_for_status response with
                 | Raise e => Raise e
                 | Ok _ => scan (splitlines (text_of response)) suffix
                 end
             end)
  end.

(** The three [except] clauses, in their order. *)
Definition check_breach_except (e : exn) : BreachResult :=
  match e with
  | TimeoutException _ =>
      {| breached := false; count := 0;
         error := Some (py "Request timed out. Please try again.") |}
  | HTTPStatusError status_code _ =>
      {| breached := false; count := 0;
         error := Some (py "API error: " ++ str_int status_code) |}
  | _ =>
      {| breached := false; count := 0;
         error := Some (py "Network error: " ++ exn_str e) |}
  end.

Fixpoint io_map {A B} (f : A → B) (m : io A) : io B :=
  match m with
  | Return a => Return (f a)
  | HttpGet r k => HttpGet r (λ outcome, io_map f (k outcome))
  end.

Definition check_breach (password : pystr) : io BreachResult :=
  io_map (λ r, match r with
               | Ok result => result
               | Raise e => check_breach_except e
               end)
         (check_breach_try password).

End BreachCheck.

(* ===================================================================== *)
(** * app.py *)
(* ===================================================================== *)

(** ** Request models

    A handler runs on a request that pydantic has validated: each field has
    its declared type, a field declared [Optional] may be [None], and a
    field the body leaves out has the default its class gives it. *)

Module AnalyzeRequest.
Record t := { password : pystr }.
(** [Field(..., min_length=1, max_length=256)] *)
Definition valid (req : t) : Prop := 1 ≤ length (password req) ≤ 256.
End AnalyzeRequest.

Module BreachCheckRequest.
Record t := { password : pystr }.
Definition valid (req : t) : Prop := 1 ≤ length (password req) ≤ 256.
End BreachCheckRequest.

Module GenerateRequest.
Record t := {
  type : pystr;
  length : option Z;
  word_count : option Z;
  uppercase : option bool;
  lowercase : option bool;
  numbers : option bool;
  symbols : option bool;
  exclude_ambiguous : option bool
}.
(** The request of a body that gives the kind and nothing else. *)
Definition defaults (kind : pystr) : t :=
  {| type := kind; length := Some 16%Z; word_count := Some 4%Z;
     uppercase := Some true; lowercase := Some true; numbers := Some true;
     symbols := Some true; exclude_ambiguous := Some false |}.
End GenerateRequest.

(** The value of an [Optional] field in the dumped dict. *)
Definition optional {A} (f : A → pyval) (x : option A) : pyval :=
  match x with
  | Some a => f a
  | None => PyNone
  end.

(** [req.model_dump()]: every field of the model, by name. *)
Definition model_dump (req : GenerateRequest.t) : gmap string pyval :=
  {[ "type" := PyStr (GenerateRequest.type req);
     "length" := optional PyInt (GenerateRequest.length req);
     "word_count" := optional PyInt (GenerateRequest.word_count req);
     "uppercase" := optional PyBool (GenerateRequest.uppercase req);
     "lowercase" := optional PyBool (GenerateRequest.lowercase req);
     "numbers" := optional PyBool (GenerateRequest.numbers req);
     "symbols" := optional PyBool (GenerateRequest.symbols req);
     "exclude_ambiguous" :=
       optional PyBool (GenerateRequest.exclude_ambiguous req) ]}.

(** ** Routes *)

Definition api_analyze (math : libm) (req : AnalyzeRequest.t)
    : AnalysisResult.t :=
  let result := analyze_password math (AnalyzeRequest.password req) in
  result.

Definition api_breach_check (repr : pystr → pystr)
    (req : BreachCheckRequest.t) : io BreachResult :=
  let result := check_breach repr (BreachCheckRequest.password req) in
  result.

Definition api_generate (req : GenerateRequest.t) : gen GeneratedSecret :=
  let options := model_dump req in
  let result := generate_password options in
  result.

(* ===================================================================== *)
(** * Vocabulary of the properties *)
(* ===================================================================== *)

(** ** Vocabulary of the analyzer's properties *)

(** Some character of the password is in the class. *)
Definition contains (class : N → bool) (password : pystr) : Prop :=
  Exists (λ c, class c = true) password.

(** What a bucket adds to the character set size. *)
Definition bucket (present : bool) (size : Z) : Z :=
  if present then size else 0.

(** The values CPython's [math] returns at the arguments of the worked
    examples: [log2] of 26.0 and 94.0, [log10] of 2.0 and 1e10, and 10.0 to
    the two exponents the analysis of the examples computes. *)
Definition sample_math : libm := {|
  log2 x :=
    if (x =? 26)%float then 4.700439718141092%float
    else if (x =? 94)%float then 6.554588851677638%float
    else 0%float;
  log10 x :=
    if (x =? 2)%float then 0.3010299956639812%float
    else if (x =? 10000000000)%float then 10%float
    else 0%float;
  pow b x :=
    if (x =? -8.585026652029182)%float then 2.6000000000000014e-09%float
    else if (x =? 21.57004565759518)%float then 3.715742908341025e+21%float
    else 0%float
|}.

(** The place of a strength on the scale of labels, weakest first. *)
Definition strength_rank (s : Strength) : nat :=
  if bool_decide (label s = py "Very Weak") then 0
  else if bool_decide (label s = py "Weak") then 1
  else if bool_decide (label s = py "Moderate") then 2
  else if bool_decide (label s = py "Strong") then 3
  else 4.

(** ** Vocabulary of the generator's properties *)

(** The characters of a letter or digit class the generator draws from: the
    class itself, or the class without the ambiguous characters. *)
Definition class_subset (exclude_ambiguous : bool) (chars : pystr) : pystr :=
  if exclude_ambiguous
  then filter (λ c, c ∉ AMBIGUOUS_CHARS) chars else chars.

(** The subsets of the selected classes, in the order the generator visits
    them; the sampling pool is their concatenation. *)
Definition selected_subsets
    (uppercase lowercase numbers symbols exclude_ambiguous : bool)
    : list pystr :=
  (if lowercase
   then [class_subset exclude_ambiguous ascii_lowercase] else [])
  ++ (if uppercase
      then [class_subset exclude_ambiguous ascii_uppercase] else [])
  ++ (if numbers then [class_subset exclude_ambiguous digits] else [])
  ++ (if symbols then [punctuation] else []).

(** [max(8, min(128, length))] *)
Definition clamp (lo hi x : Z) : Z := Z.max lo (Z.min hi x).

(** The secret of the standard branch of [generate_password]. *)
Definition standard_secret (options : gmap string pyval) : gen pystr :=
  length ← lift (as_int (get options "length" (PyInt 16)));
  generate_standard length
    (truthy (get options "uppercase" (PyBool true)))
    (truthy (get options "lowercase" (PyBool true)))
    (truthy (get options "numbers" (PyBool true)))
    (truthy (get options "symbols" (PyBool true)))
    (truthy (get options "exclude_ambiguous" (PyBool false))).

(** The entropy source of the worked examples. *)
Definition sample_source : source := Source (λ n, 7 * n + 3) 0.

(** Between the two states of the entropy source [n] numbers were drawn. *)
Definition drawn (n : nat) (src src' : source) : Prop :=
  tape src' = tape src ∧ cursor src' = cursor src + n.

(** The first position of [c] in [seq]: the draw on which [choice] returns
    [c]. *)
Definition index_of {A} `{EqDecision A} (c : A) (seq : list A) : nat :=
  from_option fst 0 (list_find (λ x, x = c) seq).

(** No character belongs to two of the subsets. *)
Fixpoint pairwise_disjoint (subsets : list pystr) : Prop :=
  match subsets with
  | [] => True
  | s :: ss => Forall (λ s', ∀ c, c ∈ s → c ∉ s') ss ∧ pairwise_disjoint ss
  end.

(** ** Vocabulary of the breach checker's properties *)

Definition is_hex (c : N) : bool :=
  bool_decide (c ∈ py "0123456789ABCDEFabcdef").

Definition is_upper_hex (c : N) : bool :=
  bool_decide (c ∈ py "0123456789ABCDEF").

(** A record of the range response: a hash suffix and a count. *)
Definition record_line (r : pystr * N) : pystr :=
  r.1 ++ py ":" ++ decimal r.2.

(** The suffix is written in hexadecimal digits, and the count is within
    the number of digits [int] converts. *)
Definition well_formed (r : pystr * N) : Prop :=
  Forall (λ c, is_hex c = true) r.1
  ∧ length (decimal r.2) ≤ int_max_str_digits.

(** The number a string of decimal digits denotes, from the value [acc] of
    the digits before it. *)
Definition digits_value (acc : Z) (s : pystr) : Z :=
  fold_left (λ a c, (10 * a + Z.of_N (c - 48))%Z) s acc.

(** The result of a scan that found the suffix, and of one that did not. *)
Definition found (n : Z) : BreachResult :=
  {| breached := true; count := n; error := None |}.
Definition not_found : BreachResult :=
  {| breached := false; count := 0; error := None |}.

(** The result every failure path returns, with its message. *)
Definition failure (msg : pystr) : BreachResult :=
  {| breached := false; count := 0; error := Some msg |}.

(** The first record whose suffix is [suffix]. *)
Definition first_match (suffix : pystr) (records : list (pystr * N))
    : option (pystr * N) :=
  find (λ r, bool_decide (r.1 = suffix)) records.

(** A stand-in for [repr] in worked examples: the text between single
    quotes, which is what [repr] gives for printable ASCII without quotes
    or backslashes. *)
Definition repr_quoted (s : pystr) : pystr := py "'" ++ s ++ py "'".

(** What the test of the loop reads off a line: when the line has two parts
    around one colon and the first part, stripped, is the suffix, the second
    part, stripped. *)
Definition record_of (suffix line : pystr) : option pystr :=
  match split 58 line with
  | [part0; part1] =>
      if bool_decide (strip part0 = suffix) then Some (strip part1) else None
  | _ => None
  end.

(** ** Vocabulary of the routes' properties *)

(** The field the kind of a generation request reads its size from. *)
Definition size_field (req : GenerateRequest.t) : option Z :=
  if bool_decide (GenerateRequest.type req = py "passphrase")
  then GenerateRequest.word_count req else GenerateRequest.length req.

(** The truth value of an optional flag: [None] is false. *)
Definition is_set (flag : option bool) : bool :=
  match flag with
  | Some b => b
  | None => false
  end.

(* ===================================================================== *)
(** * Properties of entropy.py *)
(* ===================================================================== *)

(** ** The order of binary64 numbers *)

Ltac compare_cases :=
  repeat match goal with
         | |- context [PosDef.Pos.compare_cont Eq ?a ?b] =>
             change (PosDef.Pos.compare_cont Eq a b) with (Pos.compare a b)
         | H : context [PosDef.Pos.compare_cont Eq ?a ?b] |- _ =>
             change (PosDef.Pos.compare_cont Eq a b) with (Pos.compare a b)
               in H
         end;
  repeat match goal with
         | |- context [(?a ?= ?b)%Z] => destruct (Z.compare_spec a b)
         | H : context [(?a ?= ?b)%Z] |- _ => destruct (Z.compare_spec a b)
         | |- context [(?a ?= ?b)%positive] => destruct (Pos.compare_spec a b)
         | H : context [(?a ?= ?b)%positive] |- _ =>
             destruct (Pos.compare_spec a b)
         end;
  simpl in *; try discriminate; try reflexivity; try lia.

(** Below [y], and [y] at most [z]: below [z]. *)
Lemma SFltb_leb_trans x y z :
  SFltb x y = true → SFleb y z = true → SFltb x z = true.
Proof.
  unfold SFltb, SFleb.
  destruct x as [s| s| |s m e], y as [s'| s'| |s' m' e'],
           z as [s''| s''| |s'' m'' e'']; simpl;
    try destruct s; try destruct s'; try destruct s'';
    try discriminate; try reflexivity; compare_cases.
Qed.

(** At most [y]: not above it. *)
Lemma SFleb_not_ltb x y : SFleb x y = true → SFltb y x = false.
Proof.
  unfold SFltb, SFleb.
  destruct x as [s| s| |s m e], y as [s'| s'| |s' m' e']; simpl;
    try destruct s; try destruct s';
    try discriminate; try reflexivity; compare_cases.
Qed.

Lemma leb_not_ltb (a b : float) :
  (a <=? b)%float = true → (b <? a)%float = false.
Proof. rewrite leb_spec, ltb_spec. apply SFleb_not_ltb. Qed.

Lemma ltb_leb_trans (a b c : float) :
  (a <? b)%float = true → (b <=? c)%float = true → (a <? c)%float = true.
Proof. rewrite leb_spec, !ltb_spec. apply SFltb_leb_trans. Qed.

(** A number at or above [b] is not below a bound [a] that is at most [b]. *)
Lemma le_not_lt (a b : Z) (x : number) :
  (a ≤ b)%Z →
  (float_of_int a <=? float_of_int b)%float = true →
  num_le (Int b) x = true → num_lt x (Int a) = false.
Proof.
  destruct x as [z|f]; simpl; intros Hab Hab' Hle.
  - apply Z.leb_le in Hle. apply Z.ltb_ge. lia.
  - destruct (f <? float_of_int a)%float eqn:Hlt; [|done].
    pose proof (ltb_leb_trans _ _ _ Hlt Hab') as Hlt'.
    by rewrite (leb_not_ltb _ _ Hle) in Hlt'.
Qed.

(** ** Strength bands *)

Ltac not_below :=
  match goal with
  | H : num_le (Int ?b) ?x = true |- context [num_lt ?x (Int ?a)] =>
      rewrite (le_not_lt a b x ltac:(lia) ltac:(vm_compute; reflexivity) H)
  end.

(** C8.  The bands are half-open on the lower bound and the first match
    wins: an entropy below 28 is Very Weak, from 28 and below 36 Weak, from
    36 and below 60 Moderate, from 60 and below 80 Strong, from 80 Very
    Strong, each with its colour; 27.99 is Very Weak, 28.0 Weak, 79.99
    Strong and 80.0 Very Strong. *)
Theorem strength_bands (entropy : number) :
  (num_lt entropy (Int 28) = true →
   _get_strength_label entropy
   = {| label := py "Very Weak"; color := py "#ef4444" |})
  ∧ (num_le (Int 28) entropy = true → num_lt entropy (Int 36) = true →
     _get_strength_label entropy
     = {| label := py "Weak"; color := py "#f97316" |})
  ∧ (num_le (Int 36) entropy = true → num_lt entropy (Int 60) = true →
     _get_strength_label entropy
     = {| label := py "Moderate"; color := py "#eab308" |})
  ∧ (num_le (Int 60) entropy = true → num_lt entropy (Int 80) = true →
     _get_strength_label entropy
     = {| label := py "Strong"; color := py "#22c55e" |})
  ∧ (num_le (Int 80) entropy = true →
     _get_strength_label entropy
     = {| label := py "Very Strong"; color := py "#06b6d4" |})
  ∧ label (_get_strength_label (Float 27.99)) = py "Very Weak"
  ∧ label (_get_strength_label (Float 28.0)) = py "Weak"
  ∧ label (_get_strength_label (Float 79.99)) = py "Strong"
  ∧ label (_get_strength_label (Float 80.0)) = py "Very Strong".
Proof.
  unfold _get_strength_label.
  split; [by intros ->|].
  split; [intros Hle ->; by not_below|].
  split; [intros Hle ->; by do 2 not_below|].
  split; [intros Hle ->; by do 3 not_below|].
  split; [intros Hle; by do 4 not_below|].
  repeat split; vm_compute; reflexivity.
Qed.

(** ** The empty password *)

(** C9.  The analysis of the empty string is the fixed zero result: length,
    character set size, entropy and crack time in seconds are the int 0,
    the label is Very Weak, and the five policy flags are false. *)
Theorem analyze_password_empty (math : libm) :
  analyze_password math []
  = {| AnalysisResult.length := 0;
       AnalysisResult.charset_size := 0;
       AnalysisResult.entropy := Int 0;
       AnalysisResult.crack_time := py "Instantly";
       AnalysisResult.crack_time_seconds := Int 0;
       AnalysisResult.strength :=
         {| label := py "Very Weak"; color := py "#ef4444" |};
       AnalysisResult.policy :=
         {| min_length := false; has_uppercase := false;
            has_lowercase := false; has_number := false;
            has_symbol := false |} |}.
Proof.
  unfold analyze_password. by rewrite bool_decide_eq_true_2.
Qed.

(** ** Worked analyses *)

(** The analysis of the one-letter password a, as CPython returns it. *)
Example analyze_password_one_letter :
  analyze_password sample_math (py "a")
  = {| AnalysisResult.length := 1;
       AnalysisResult.charset_size := 26;
       AnalysisResult.entropy := Float 4.7;
       AnalysisResult.crack_time := py "Instantly";
       AnalysisResult.crack_time_seconds := Float 2.6000000000000014e-09;
       AnalysisResult.strength :=
         {| label := py "Very Weak"; color := py "#ef4444" |};
       AnalysisResult.policy :=
         {| min_length := false; has_uppercase := false;
            has_lowercase := true; has_number := false;
            has_symbol := false |} |}.
Proof. by vm_compute. Qed.

(** Sixteen characters over the four classes. *)
Example analyze_password_four_classes :
  analyze_password sample_math (py "aB3$aB3$aB3$aB3$")
  = {| AnalysisResult.length := 16;
       AnalysisResult.charset_size := 94;
       AnalysisResult.entropy := Float 104.87;
       AnalysisResult.crack_time := py "Virtually uncrackable";
       AnalysisResult.crack_time_seconds := Float 3.715742908341025e+21;
       AnalysisResult.strength :=
         {| label := py "Very Strong"; color := py "#06b6d4" |};
       AnalysisResult.policy :=
         {| min_length := true; has_uppercase := true;
            has_lowercase := true; has_number := true;
            has_symbol := true |} |}.
Proof. by vm_compute. Qed.

(** The rounding of [round] and of the format specification is to the
    nearest decimal of the exact binary value, ties to even. *)
Example round_float_samples :
  round_float 2 2.675 = 2.67%float
  ∧ round_float 2 0.125 = 0.12%float
  ∧ round_float 2 104.8734216268422 = 104.87%float
  ∧ format_f 1 59.95 = py "60.0"
  ∧ format_f 1 0.25 = py "0.2"
  ∧ format_f 0 2.5 = py "2".
Proof. repeat split; by vm_compute. Qed.

(** ** Character set size and entropy *)

Lemma search_contains class password :
  search class password = bool_decide (contains class password).
Proof.
  unfold search, contains.
  destruct (existsb class password) eqn:E; symmetry.
  - apply bool_decide_eq_true_2, Exists_exists.
    apply existsb_exists in E as (c & Hin & Hc).
    exists c. split; [by apply list_elem_of_In | done].
  - apply bool_decide_eq_false_2. intros (c & Hin & Hc)%Exists_exists.
    apply not_true_iff_false in E. apply E, existsb_exists.
    exists c. split; [by apply list_elem_of_In | done].
Qed.

Lemma charset_size_buckets password :
  _get_charset_size password
  = (bucket (bool_decide (contains is_lower password)) 26
     + bucket (bool_decide (contains is_upper password)) 26
     + bucket (bool_decide (contains is_digit password)) 10
     + bucket (bool_decide (contains is_other password)) 32)%Z.
Proof.
  unfold _get_charset_size, bucket. rewrite !search_contains.
  by repeat case_bool_decide.
Qed.

(** A non-empty password has a character in one of the four buckets. *)
Lemma charset_size_pos password :
  password ≠ [] → (10 ≤ _get_charset_size password ≤ 94)%Z.
Proof.
  intros Hne. destruct password as [|c s]; [done|].
  unfold _get_charset_size, search. cbn [existsb]. unfold is_other at 1.
  destruct (is_lower c), (is_upper c), (is_digit c); simpl;
    repeat match goal with |- context [if ?b then _ else _] => destruct b end;
    lia.
Qed.

(** ** Crack time labels *)

(** Not below [a] when at least [b], for [a] at most [b]. *)
Lemma float_le_not_lt (a b f : float) :
  (a <=? b)%float = true → (b <=? f)%float = true → (f <? a)%float = false.
Proof.
  intros Hab Hbf. destruct (f <? a)%float eqn:Hlt; [|done].
  pose proof (ltb_leb_trans _ _ _ Hlt Hab) as Hlt'.
  by rewrite (leb_not_ltb _ _ Hbf) in Hlt'.
Qed.

(** The int literals of the thresholds, as floats. *)
Lemma float_of_int_thresholds :
  float_of_int 1 = 1%float ∧ float_of_int 60 = 60%float
  ∧ float_of_int 3600 = 3600%float ∧ float_of_int 86400 = 86400%float
  ∧ float_of_int 31536000 = 31536000%float ∧ float_of_int 100 = 100%float
  ∧ float_of_int 10000 = 10000%float.
Proof. repeat split; vm_compute; reflexivity. Qed.

Ltac above bound :=
  match goal with
  | H : (bound <=? ?f)%float = true |- context [(?f <? ?a)%float] =>
      rewrite (float_le_not_lt a bound f ltac:(vm_compute; reflexivity) H)
  end.

(** X1.  The crack time label of a float follows its bands, each closed
    below and open above: Instantly below a thousandth of a second, Less
    than a second below one second, then the seconds below 60, the minutes
    below 3600, the hours below 86400 and the days below a year of 365 days,
    each with one decimal; from a year on, the years with one decimal below
    100 years, the centuries without decimals below 10000 years, and
    Virtually uncrackable from there on.  The int 0 is Instantly; infinity
    and NaN are Virtually uncrackable.  The number is rounded after its band
    is chosen, so the top of a band prints as the bottom of the next: 60.0
    seconds, 60.0 minutes, 24.0 hours, 365.0 days, 100.0 years and 100
    centuries all appear. *)
Theorem format_crack_time_bands (seconds : float) :
  ((seconds <? 0.001)%float = true →
   _format_crack_time (Float seconds) = py "Instantly")
  ∧ ((0.001 <=? seconds)%float = true → (seconds <? 1)%float = true →
     _format_crack_time (Float seconds) = py "Less than a second")
  ∧ ((1 <=? seconds)%float = true → (seconds <? 60)%float = true →
     _format_crack_time (Float seconds)
     = format_f 1 seconds ++ py " seconds")
  ∧ ((60 <=? seconds)%float = true → (seconds <? 3600)%float = true →
     _format_crack_time (Float seconds)
     = format_f 1 (seconds / 60) ++ py " minutes")
  ∧ ((3600 <=? seconds)%float = true → (seconds <? 86400)%float = true →
     _format_crack_time (Float seconds)
     = format_f 1 (seconds / 3600) ++ py " hours")
  ∧ ((86400 <=? seconds)%float = true → (seconds <? 31536000)%float = true →
     _format_crack_time (Float seconds)
     = format_f 1 (seconds / 86400) ++ py " days")
  ∧ ((31536000 <=? seconds)%float = true →
     let years := (seconds / 31536000)%float in
     ((years <? 100)%float = true →
      _format_crack_time (Float seconds) = format_f 1 years ++ py " years")
     ∧ ((100 <=? years)%float = true → (years <? 10000)%float = true →
        _format_crack_time (Float seconds)
        = format_f 0 (years / 100) ++ py " centuries")
     ∧ ((10000 <=? years)%float = true →
        _format_crack_time (Float seconds) = py "Virtually uncrackable"))
  ∧ _format_crack_time (Int 0) = py "Instantly"
  ∧ _format_crack_time (Float infinity) = py "Virtually uncrackable"
  ∧ _format_crack_time (Float nan) = py "Virtually uncrackable"
  ∧ _format_crack_time (Float 0.000999) = py "Instantly"
  ∧ _format_crack_time (Float 0.001) = py "Less than a second"
  ∧ _format_crack_time (Float 59.96) = py "60.0 seconds"
  ∧ _format_crack_time (Float 60.0) = py "1.0 minutes"
  ∧ _format_crack_time (Float 3599.0) = py "60.0 minutes"
  ∧ _format_crack_time (Float 86399.0) = py "24.0 hours"
  ∧ _format_crack_time (Float 31535999.0) = py "365.0 days"
  ∧ _format_crack_time (Float 3153599999.0) = py "100.0 years"
  ∧ _format_crack_time (Float 3153600000.0) = py "1 centuries"
  ∧ _format_crack_time (Float 315359999999.0) = py "100 centuries"
  ∧ _format_crack_time (Float 315360000000.0) = py "Virtually uncrackable".
Proof.
  split; [|split; [|split; [|split; [|split; [|split; [|split]]]]]];
    [..|repeat split; by vm_compute];
    unfold _format_crack_time, num_lt, truediv, to_float;
    destruct float_of_int_thresholds as (-> & -> & -> & -> & -> & -> & ->).
  - by intros ->.
  - intros H ->. by above 0.001%float.
  - intros H ->. by do 2 above 1%float.
  - intros H ->. by do 3 above 60%float.
  - intros H ->. by do 4 above 3600%float.
  - intros H ->. by do 5 above 86400%float.
  - intros H. do 6 above 31536000%float.
    split; [by intros ->|].
    split; [intros H' ->; by above 100%float|].
    intros H'. by do 2 above 10000%float.
Qed.

Section AnalyzerProperties.

Variable math : libm.

(** C5, as amended.  For every non-empty password the reported character
    set size is the sum of the buckets present (26 for a lowercase letter,
    26 for an uppercase letter, 10 for a digit, 32 for any other character),
    whatever the number of distinct characters, and the reported entropy is
    the length times the base 2 logarithm of that size, rounded to two
    decimal places by [round]. *)
Theorem analyze_password_entropy (password : pystr) :
  password ≠ [] →
  let r := analyze_password math password in
  AnalysisResult.length r = Z.of_nat (length password)
  ∧ AnalysisResult.charset_size r
    = (bucket (bool_decide (contains is_lower password)) 26
       + bucket (bool_decide (contains is_upper password)) 26
       + bucket (bool_decide (contains is_digit password)) 10
       + bucket (bool_decide (contains is_other password)) 32)%Z
  ∧ (0 < AnalysisResult.charset_size r)%Z
  ∧ AnalysisResult.entropy r
    = round (Float (float_of_int (AnalysisResult.length r)
                    * log2 math (float_of_int (AnalysisResult.charset_size r))))
        2.
Proof.
  intros Hne r. subst r. unfold analyze_password.
  rewrite bool_decide_eq_false_2 by done. cbn [AnalysisResult.length
    AnalysisResult.charset_size AnalysisResult.entropy].
  pose proof (charset_size_pos password Hne) as Hpos.
  repeat split; [apply charset_size_buckets | lia |].
  by replace (0 <? _get_charset_size password)%Z with true
    by (symmetry; apply Z.ltb_lt; lia).
Qed.

(** C6.  For a non-empty password whose entropy is positive, the analyzer
    takes the base 10 logarithm of the seconds as the entropy times the
    logarithm of 2 minus the logarithm of the guessing rate.  When that is
    above 30 the seconds field is the int -1 and the label says Virtually
    uncrackable; otherwise the seconds field is 10 to that power.  The power
    function is assumed not to overflow on an exponent that is not above 30,
    as the C library's does not. *)
Theorem analyze_password_crack_time (password : pystr) :
  password ≠ [] →
  (∀ x, (30 <? x)%float = false → (pow math 10 x =? infinity)%float = false) →
  let entropy :=
    (float_of_int (Z.of_nat (length password))
     * log2 math (float_of_int (_get_charset_size password)))%float in
  (0 <? entropy)%float = true →
  let log_seconds :=
    (entropy * log10 math 2 - log10 math 10000000000)%float in
  let r := analyze_password math password in
  if (30 <? log_seconds)%float then
    AnalysisResult.crack_time_seconds r = Int (-1)
    ∧ AnalysisResult.crack_time r = py "Virtually uncrackable"
  else
    AnalysisResult.crack_time_seconds r = Float (pow math 10 log_seconds).
Proof.
  intros Hne Hpow entropy Hentropy log_seconds r. subst r.
  unfold analyze_password. rewrite bool_decide_eq_false_2 by done.
  cbn [AnalysisResult.crack_time AnalysisResult.crack_time_seconds].
  pose proof (charset_size_pos password Hne) as Hpos.
  replace (0 <? _get_charset_size password)%Z with true
    by (symmetry; apply Z.ltb_lt; lia).
  fold entropy. cbn [num_lt to_float].
  change (float_of_int 0) with 0%float.
  change (float_of_int 2) with 2%float.
  change (float_of_int 10) with 10%float.
  change (float_of_int 30) with 30%float.
  change (float_of_int GUESSES_PER_SECOND) with 10000000000%float.
  rewrite Hentropy. fold log_seconds.
  destruct (30 <? log_seconds)%float eqn:Hls.
  - split; by vm_compute.
  - cbn [num_ne to_float]. by rewrite Hpow.
Qed.

(** X2.  The policy flags of a non-empty password are independent
    membership tests: at least eight characters, an uppercase letter, a
    lowercase letter, a digit, and a character outside the letters and
    digits. *)
Theorem analyze_password_policy (password : pystr) :
  password ≠ [] →
  let policy := AnalysisResult.policy (analyze_password math password) in
  (min_length policy = true ↔ 8 ≤ length password)
  ∧ (has_uppercase policy = true ↔ contains is_upper password)
  ∧ (has_lowercase policy = true ↔ contains is_lower password)
  ∧ (has_number policy = true ↔ contains is_digit password)
  ∧ (has_symbol policy = true ↔ contains is_other password).
Proof.
  intros Hne policy. subst policy. unfold analyze_password.
  rewrite bool_decide_eq_false_2 by done.
  cbn [AnalysisResult.policy min_length has_uppercase has_lowercase
         has_number has_symbol].
  rewrite !search_contains, !bool_decide_eq_true.
  repeat split; try done; rewrite Z.leb_le; lia.
Qed.

End AnalyzerProperties.

Lemma analyze_password_policy_witness :
  has_number (AnalysisResult.policy (analyze_password sample_math (py "a1")))
  = true.
Proof.
  apply (analyze_password_policy sample_math (py "a1")); [done|].
  right. by left.
Defined.

Lemma analyze_password_entropy_witness :
  AnalysisResult.charset_size (analyze_password sample_math (py "aaa")) = 26%Z
  ∧ AnalysisResult.entropy (analyze_password sample_math (py "a"))
    = Float 4.7.
Proof.
  split.
  - destruct (analyze_password_entropy sample_math (py "aaa"))
      as (_ & -> & _); [done | by vm_compute].
  - destruct (analyze_password_entropy sample_math (py "a"))
      as (_ & _ & _ & ->); [done | by vm_compute].
Defined.

(** C5 as first stated fails on the one-letter password a: the length
    times the logarithm is 4.700439718141092, as CPython computes it, and
    the entropy reported is 4.7. *)
Lemma analyze_password_reports_rounded_entropy :
  let r := analyze_password sample_math (py "a") in
  (float_of_int (AnalysisResult.length r)
   * log2 sample_math (float_of_int (AnalysisResult.charset_size r)))%float
  = 4.700439718141092%float
  ∧ AnalysisResult.entropy r = Float 4.7
  ∧ Float 4.7 ≠ Float 4.700439718141092.
Proof.
  repeat split; by vm_compute.
Qed.

Lemma sample_math_pow_finite x :
  (30 <? x)%float = false → (pow sample_math 10 x =? infinity)%float = false.
Proof.
  intros _. unfold sample_math, pow.
  by repeat match goal with |- context [if ?b then _ else _] => destruct b end.
Qed.

(** The one-letter password a is cracked in 2.6 nanoseconds; forty
    characters over the four classes are beyond the threshold. *)
Lemma analyze_password_crack_time_witness :
  AnalysisResult.crack_time_seconds (analyze_password sample_math (py "a"))
  = Float 2.6000000000000014e-09
  ∧ AnalysisResult.crack_time_seconds
      (analyze_password sample_math
         (py "aB3$aB3$aB3$aB3$aB3$aB3$aB3$aB3$aB3$aB3$"))
    = Int (-1).
Proof.
  split.
  - exact (analyze_password_crack_time sample_math (py "a") ltac:(done)
             sample_math_pow_finite ltac:(by vm_compute)).
  - exact (proj1 (analyze_password_crack_time sample_math
             (py "aB3$aB3$aB3$aB3$aB3$aB3$aB3$aB3$aB3$aB3$") ltac:(done)
             sample_math_pow_finite ltac:(by vm_compute))).
Defined.

(** ** What the analysis depends on *)

Lemma search_app class (p q : pystr) :
  search class (p ++ q) = search class p || search class q.
Proof. apply existsb_app. Qed.

(** X3.  The analysis reads nothing of a password but its length and which
    of the four classes occur in it: two passwords of one length in which
    the same classes occur get the same result, field for field. *)
Theorem analyze_password_classes_only (math : libm) (p q : pystr) :
  length p = length q →
  search is_lower p = search is_lower q →
  search is_upper p = search is_upper q →
  search is_digit p = search is_digit q →
  search is_other p = search is_other q →
  analyze_password math p = analyze_password math q.
Proof.
  intros Hlen Hl Hu Hd Ho. unfold analyze_password, _get_charset_size.
  rewrite Hlen, Hl, Hu, Hd, Ho.
  destruct p, q; try discriminate Hlen; done.
Qed.

(** Eight times the letter a is rated as the first row of a keyboard. *)
Lemma analyze_password_classes_only_witness :
  analyze_password sample_math (py "aaaaaaaa")
  = analyze_password sample_math (py "qwertyui").
Proof.
  apply (analyze_password_classes_only sample_math
           (py "aaaaaaaa") (py "qwertyui")); reflexivity.
Defined.

(** A float that compares equal to infinity is infinity. *)
Lemma eqb_infinity (x : float) : (x =? infinity)%float = true → x = infinity.
Proof.
  rewrite FloatAxioms.eqb_spec. intros H. apply Prim2SF_inj.
  change (Prim2SF infinity) with (S754_infinity false).
  change (Prim2SF infinity) with (S754_infinity false) in H.
  by destruct (Prim2SF x) as [[]|[]| |]; simpl in H.
Qed.

(** X4.  Whatever the password and the math library, the seconds field of
    the result is never infinity: an infinite crack time is returned as the
    int -1; and whenever the field is -1 the label is Virtually
    uncrackable. *)
Theorem analyze_password_no_infinity (math : libm) (password : pystr) :
  let r := analyze_password math password in
  num_ne (AnalysisResult.crack_time_seconds r) (Float infinity) = true
  ∧ (AnalysisResult.crack_time_seconds r = Int (-1) →
     AnalysisResult.crack_time r = py "Virtually uncrackable").
Proof.
  cbv zeta. unfold analyze_password. case_bool_decide; [by vm_compute|].
  cbn [AnalysisResult.crack_time AnalysisResult.crack_time_seconds].
  set (entropy := if (0 <? _)%Z then _ else _).
  destruct (num_lt (Int 0) entropy); [|by vm_compute].
  destruct (num_lt (Int 30) _).
  - split; by vm_compute.
  - set (seconds := pow math _ _).
    destruct (num_ne (Float seconds) (Float infinity)) eqn:E; [done|].
    split; [by vm_compute|]. intros _.
    cbn [num_ne to_float] in E. apply negb_false_iff in E.
    by rewrite (eqb_infinity _ E).
Qed.

(** X5.  The character set size is 0 for the empty string only; for any
    other string it is one of the eleven sums of the four bucket sizes.
    Appending characters never lowers it, a concatenation has at most the
    sum of the sizes of its parts, and repeating a string changes nothing. *)
Theorem charset_size_grows (p q : pystr) :
  (_get_charset_size p = 0%Z ↔ p = [])
  ∧ (p ≠ [] →
     _get_charset_size p ∈ [10; 26; 32; 36; 42; 52; 58; 62; 68; 84; 94]%Z)
  ∧ (_get_charset_size p ≤ _get_charset_size (p ++ q))%Z
  ∧ (_get_charset_size (p ++ q)
     ≤ _get_charset_size p + _get_charset_size q)%Z
  ∧ _get_charset_size (p ++ p) = _get_charset_size p.
Proof.
  split; [|split].
  - split; [|by intros ->]. intros H0. destruct p as [|c s]; [done|].
    pose proof (charset_size_pos (c :: s) ltac:(done)). lia.
  - intros Hne. destruct p as [|c s]; [done|].
    unfold _get_charset_size, search. cbn [existsb]. unfold is_other at 1.
    destruct (is_lower c) eqn:El, (is_upper c) eqn:Eu, (is_digit c) eqn:Ed;
      simpl;
      repeat match goal with |- context [if ?b then _ else _] => destruct b end;
      simpl; try set_solver.
    all: exfalso; unfold is_lower, is_upper, is_digit in *;
      repeat match goal with
             | H : _ && _ = true |- _ => apply andb_true_iff in H as [? ?]
             | H : (_ <=? _)%N = true |- _ => apply N.leb_le in H
             end; lia.
  - unfold _get_charset_size. rewrite !search_app.
    destruct (search is_lower p), (search is_upper p), (search is_digit p),
      (search is_other p), (search is_lower q), (search is_upper q),
      (search is_digit q), (search is_other q); simpl; repeat split; lia.
Qed.

(** ** The scale of strengths *)

(** At most [y], and [y] below [z]: below [z]. *)
Lemma SFleb_ltb_trans x y z :
  SFleb x y = true → SFltb y z = true → SFltb x z = true.
Proof.
  unfold SFltb, SFleb.
  destruct x as [s| s| |s m e], y as [s'| s'| |s' m' e'],
           z as [s''| s''| |s'' m'' e'']; simpl;
    try destruct s; try destruct s'; try destruct s'';
    try discriminate; try reflexivity; compare_cases.
Qed.

Lemma leb_ltb_trans (a b c : float) :
  (a <=? b)%float = true → (b <? c)%float = true → (a <? c)%float = true.
Proof. rewrite leb_spec, !ltb_spec. apply SFleb_ltb_trans. Qed.

(** X6.  The label never gets weaker as the entropy grows: of two float
    entropies, the larger has a label at least as high on the scale Very
    Weak, Weak, Moderate, Strong, Very Strong. *)
Theorem strength_label_monotone (e1 e2 : float) :
  (e1 <=? e2)%float = true →
  strength_rank (_get_strength_label (Float e1))
  ≤ strength_rank (_get_strength_label (Float e2)).
Proof.
  intros Hle. unfold _get_strength_label, num_lt, to_float.
  repeat match goal with
         | |- context [(e2 <? ?t)%float] =>
             let E := fresh "E" in
             destruct (e2 <? t)%float eqn:E;
             [rewrite (leb_ltb_trans _ _ _ Hle E)|]
         end;
  repeat match goal with
         | |- context [(e1 <? ?t)%float] => destruct (e1 <? t)%float
         end;
  vm_compute; lia.
Qed.

Lemma strength_label_monotone_witness :
  strength_rank (_get_strength_label (Float 35.99))
  ≤ strength_rank (_get_strength_label (Float 60.0)).
Proof. apply (strength_label_monotone 35.99 60.0). reflexivity. Defined.


(* ===================================================================== *)
(** * Properties of generator.py *)
(* ===================================================================== *)

Section GenMonad.
Context {A B : Type}.

Lemma bind_ok (m : gen A) (f : A → gen B) src a src' :
  m src = (Ok a, src') → (m ≫= f) src = f a src'.
Proof. intros H. unfold mbind, gen_bind. by rewrite H. Qed.

Lemma bind_raise (m : gen A) (f : A → gen B) src e src' :
  m src = (Raise e, src') → (m ≫= f) src = (Raise e, src').
Proof. intros H. unfold mbind, gen_bind. by rewrite H. Qed.

End GenMonad.

(** A draw below a positive bound returns a number below it. *)
Lemma randbelow_ok n src :
  0 < n → ∃ j, randbelow n src = (Ok j, advance src) ∧ j < n.
Proof.
  intros Hn. destruct n as [|n]; [lia|].
  eexists. split; [reflexivity|]. apply Nat.mod_upper_bound. lia.
Qed.

(** A choice from a non-empty sequence returns one of its elements. *)
Lemma choice_ok {A} (seq : list A) src :
  seq ≠ [] → ∃ c, choice seq src = (Ok c, advance src) ∧ c ∈ seq.
Proof.
  intros Hne. destruct seq as [|x seq]; [done|].
  unfold choice.
  destruct (randbelow_ok (length (x :: seq)) src) as (j & Hj & Hlt);
    [simpl; lia|].
  rewrite (bind_ok _ _ _ _ _ Hj).
  destruct (lookup_lt_is_Some_2 (x :: seq) j Hlt) as [c Hc].
  rewrite Hc. exists c. split; [done|].
  by apply list_elem_of_lookup_2 with j.
Qed.

Lemma comprehension_choice_ok {A} (pool : list A) n src :
  pool ≠ [] →
  ∃ l src', comprehension n (choice pool) src = (Ok l, src')
            ∧ length l = n ∧ Forall (λ c, c ∈ pool) l.
Proof.
  intros Hne. revert src. induction n as [|n IH]; intros src.
  - exists [], src. by repeat split.
  - destruct (choice_ok pool src Hne) as (c & Hc & Hin).
    destruct (IH (advance src)) as (l & src' & Hl & Hlen & Hall).
    exists (c :: l), src'. simpl.
    rewrite (bind_ok _ _ _ _ _ Hc), (bind_ok _ _ _ _ _ Hl).
    repeat split; [by rewrite Hlen | by constructor].
Qed.

(** An exchange inside the bounds is a permutation. *)
Lemma swap_ok i j (a : list N) :
  i < length a → j < length a → ∃ a', swap i j a = Ok a' ∧ a' ≡ₚ a.
Proof.
  intros Hi Hj. unfold swap.
  destruct (lookup_lt_is_Some_2 a i Hi) as [ai Hai].
  destruct (lookup_lt_is_Some_2 a j Hj) as [aj Haj].
  rewrite Hai, Haj. eexists. split; [done|].
  by apply Permutation_insert_swap.
Qed.

(** The Fisher-Yates loop never raises and permutes its argument. *)
Lemma shuffle_ok i (a : list N) src :
  (i < length a ∨ i = 0) →
  ∃ a' src', shuffle i a src = (Ok a', src') ∧ a' ≡ₚ a.
Proof.
  revert a src. induction i as [|i IH]; intros a src Hi.
  - by exists a, src.
  - destruct Hi as [Hi|]; [|done].
    destruct (randbelow_ok (S i + 1) src) as (j & Hj & Hlt); [lia|].
    destruct (swap_ok (S i) j a) as (a1 & Hs & Hp); [lia..|].
    destruct (IH a1 (advance src)) as (a' & src' & Hrun & Hp').
    { left. rewrite (Permutation_length Hp). lia. }
    exists a', src'. split; [|by rewrite Hp', Hp].
    cbn [shuffle]. rewrite (bind_ok _ _ _ _ _ Hj).
    unfold lift at 1. unfold mbind at 1, gen_bind at 1. by rewrite Hs.
Qed.

(** A closed decidable proposition, settled by evaluation. *)
Ltac by_compute :=
  match goal with
  | |- ?P => apply (bool_decide_eq_true_1 P); vm_compute; reflexivity
  end.

Lemma forall_by_compute (P : N → bool) (l : list N) :
  forallb P l = true → ∀ c, c ∈ l → P c = true.
Proof.
  intros H c Hc. rewrite forallb_forall in H. apply H.
  by apply list_elem_of_In.
Qed.

(** Membership tests over concrete character lists, by evaluation. *)
Lemma not_elem_by_compute (l cls : list N) :
  forallb (λ c, negb (bool_decide (c ∈ cls))) l = true →
  ∀ c, c ∈ l → c ∉ cls.
Proof.
  intros H c Hc Hin. rewrite forallb_forall in H.
  specialize (H c). rewrite <- list_elem_of_In in H. specialize (H Hc).
  by apply negb_true_iff, bool_decide_eq_false in H.
Qed.

Ltac run_choice :=
  match goal with
  | |- context [choice ?seq ?s] =>
      let c := fresh "c" in
      let Hc := fresh "Hc" in
      let Hin := fresh "Hin" in
      destruct (choice_ok seq s) as (c & Hc & Hin); [by vm_compute|];
      rewrite Hc; cbv beta iota
  end.

Ltac run_filler :=
  match goal with
  | |- context [comprehension ?n (choice ?pool) ?s] =>
      let filler := fresh "filler" in
      let s' := fresh "src'" in
      let Hf := fresh "Hf" in
      let Hlen := fresh "Hlen" in
      let Hall := fresh "Hall" in
      destruct (comprehension_choice_ok pool n s)
        as (filler & s' & Hf & Hlen & Hall); [by vm_compute|];
      rewrite Hf; cbv beta iota
  end.

Ltac run_shuffle :=
  match goal with
  | |- context [shuffle ?i ?a ?s] =>
      let pw := fresh "pw" in
      let s' := fresh "src'" in
      let Hs := fresh "Hs" in
      let Hp := fresh "Hp" in
      destruct (shuffle_ok i a s) as (pw & s' & Hs & Hp);
        [rewrite !length_app; simpl; lia|];
      rewrite Hs
  end.

(** With a class selected, generation succeeds; the password is a
    rearrangement of one required character per selected class, in class
    order, followed by draws from the pool. *)
Lemma generate_standard_run length uppercase lowercase numbers symbols
    exclude_ambiguous src :
  uppercase || lowercase || numbers || symbols = true →
  let subsets :=
    selected_subsets uppercase lowercase numbers symbols exclude_ambiguous in
  ∃ required filler pw src',
    generate_standard length uppercase lowercase numbers symbols
      exclude_ambiguous src = (Ok pw, src')
    ∧ pw ≡ₚ required ++ filler
    ∧ Forall2 (λ c subset, c ∈ subset) required subsets
    ∧ Forall (λ c, c ∈ concat subsets) filler
    ∧ List.length filler
      = Z.to_nat (clamp 8 128 length - Z.of_nat (List.length required)).
Proof.
  intros Hsel subsets. subst subsets.
  unfold generate_standard, mbind, gen_bind, mret, gen_ret, raise, lift.
  destruct uppercase, lowercase, numbers, symbols; try discriminate Hsel;
    destruct exclude_ambiguous;
    cbv zeta; cbv beta iota; repeat run_choice;
    (rewrite bool_decide_eq_false_2 by (by vm_compute));
    run_filler; run_shuffle;
    eexists _, _, _, _; (split; [reflexivity|]);
    (split; [exact Hp|]);
    (split; [unfold selected_subsets, class_subset; simpl app;
             repeat (constructor; [assumption|]); constructor|]);
    (split; [exact Hall | exact Hlen]).
Qed.

Lemma required_in_pool (required : list N) (subsets : list (list N)) :
  Forall2 (λ c subset, c ∈ subset) required subsets →
  ∀ c, c ∈ required → c ∈ concat subsets.
Proof.
  induction 1 as [|x subset required subsets Hx _ IH]; intros c Hc.
  - by apply elem_of_nil in Hc.
  - simpl. apply elem_of_app. apply elem_of_cons in Hc as [->|Hc]; auto.
Qed.

Lemma subset_has_required (required : list N) (subsets : list (list N)) subset :
  Forall2 (λ c subset, c ∈ subset) required subsets →
  subset ∈ subsets → ∃ c, c ∈ required ∧ c ∈ subset.
Proof.
  induction 1 as [|x subset' required subsets Hx _ IH]; intros Hin.
  - by apply elem_of_nil in Hin.
  - apply elem_of_cons in Hin as [->|Hin].
    + exists x. split; [left | done].
    + destruct (IH Hin) as (c & Hc & Hcs). exists c. split; [by right | done].
Qed.

(** The pool holds no character of a class that is not selected, and no
    ambiguous character when those are excluded. *)
Lemma pool_excludes uppercase lowercase numbers symbols exclude_ambiguous :
  let pool := concat (selected_subsets uppercase lowercase numbers symbols
                        exclude_ambiguous) in
  (lowercase = false → ∀ c, c ∈ pool → c ∉ ascii_lowercase)
  ∧ (uppercase = false → ∀ c, c ∈ pool → c ∉ ascii_uppercase)
  ∧ (numbers = false → ∀ c, c ∈ pool → c ∉ digits)
  ∧ (symbols = false → ∀ c, c ∈ pool → c ∉ punctuation)
  ∧ (exclude_ambiguous = true → ∀ c, c ∈ pool → c ∉ AMBIGUOUS_CHARS).
Proof.
  destruct uppercase, lowercase, numbers, symbols, exclude_ambiguous;
    repeat split; intros Hflag; try discriminate Hflag;
    apply not_elem_by_compute; vm_compute; reflexivity.
Qed.

(** With a class selected, the password has the clamped length, all its
    characters come from the pool, and every selected subset is represented. *)
Lemma generate_standard_shape length uppercase lowercase numbers symbols
    exclude_ambiguous src :
  uppercase || lowercase || numbers || symbols = true →
  let subsets :=
    selected_subsets uppercase lowercase numbers symbols exclude_ambiguous in
  ∃ pw src',
    generate_standard length uppercase lowercase numbers symbols
      exclude_ambiguous src = (Ok pw, src')
    ∧ Z.of_nat (List.length pw) = clamp 8 128 length
    ∧ (∀ c, c ∈ pw → c ∈ concat subsets)
    ∧ (∀ subset, subset ∈ subsets → ∃ c, c ∈ pw ∧ c ∈ subset).
Proof.
  intros Hsel subsets.
  destruct (generate_standard_run length _ _ _ _ exclude_ambiguous src Hsel)
    as (required & filler & pw & src' & Hrun & Hp & Hreq & Hfill & Hlen).
  exists pw, src'. split; [exact Hrun|]. split; [|split].
  - rewrite (Permutation_length Hp), length_app, Hlen.
    apply Forall2_length in Hreq. rewrite Hreq. unfold clamp.
    assert (List.length (selected_subsets uppercase lowercase numbers symbols
                           exclude_ambiguous) ≤ 4)
      by (destruct uppercase, lowercase, numbers, symbols; simpl; lia).
    lia.
  - intros c Hc. rewrite Hp in Hc. apply elem_of_app in Hc as [Hc|Hc].
    + by apply (required_in_pool _ _ Hreq).
    + by apply (proj1 (Forall_forall _ _) Hfill).
  - intros subset Hin.
    destruct (subset_has_required _ _ _ Hreq Hin) as (c & Hc & Hcs).
    exists c. split; [|done]. rewrite Hp. apply elem_of_app. by left.
Qed.

(** C1.  Whenever at least one class is selected, for any requested length
    and either setting of [exclude_ambiguous], [generate_standard] returns a
    string whose length is the request clamped into 8..128, that holds a
    character of the subset of every selected class (the class itself, or
    the class without the ambiguous characters for letters and digits; the
    punctuation as it is), no character of a class that is not selected, and,
    when [exclude_ambiguous] is set, none of i l 1 L o 0 O. *)
Theorem generate_standard_composition
    (length : Z)
    (uppercase lowercase numbers symbols exclude_ambiguous : bool)
    (src : source) :
  uppercase || lowercase || numbers || symbols = true →
  ∃ pw src',
    generate_standard length uppercase lowercase numbers symbols
      exclude_ambiguous src = (Ok pw, src')
    ∧ Z.of_nat (List.length pw) = clamp 8 128 length
    ∧ (lowercase = true →
       ∃ c, c ∈ pw ∧ c ∈ class_subset exclude_ambiguous ascii_lowercase)
    ∧ (uppercase = true →
       ∃ c, c ∈ pw ∧ c ∈ class_subset exclude_ambiguous ascii_uppercase)
    ∧ (numbers = true →
       ∃ c, c ∈ pw ∧ c ∈ class_subset exclude_ambiguous digits)
    ∧ (symbols = true → ∃ c, c ∈ pw ∧ c ∈ punctuation)
    ∧ (lowercase = false → ∀ c, c ∈ pw → c ∉ ascii_lowercase)
    ∧ (uppercase = false → ∀ c, c ∈ pw → c ∉ ascii_uppercase)
    ∧ (numbers = false → ∀ c, c ∈ pw → c ∉ digits)
    ∧ (symbols = false → ∀ c, c ∈ pw → c ∉ punctuation)
    ∧ (exclude_ambiguous = true → ∀ c, c ∈ pw → c ∉ AMBIGUOUS_CHARS).
Proof.
  intros Hsel.
  destruct (generate_standard_shape length _ _ _ _ exclude_ambiguous src Hsel)
    as (pw & src' & Hrun & Hlen & Hpool & Hhas).
  exists pw, src'. split; [exact Hrun|]. split; [exact Hlen|].
  destruct (pool_excludes uppercase lowercase numbers symbols
              exclude_ambiguous) as (Hl & Hu & Hn & Hs & Ha).
  repeat split.
  - intros ->. apply Hhas. unfold selected_subsets. set_solver.
  - intros ->. apply Hhas. unfold selected_subsets. set_solver.
  - intros ->. apply Hhas. unfold selected_subsets. set_solver.
  - intros ->. apply Hhas. unfold selected_subsets. set_solver.
  - intros E c Hc. by apply (Hl E), Hpool.
  - intros E c Hc. by apply (Hu E), Hpool.
  - intros E c Hc. by apply (Hn E), Hpool.
  - intros E c Hc. by apply (Hs E), Hpool.
  - intros E c Hc. by apply (Ha E), Hpool.
Qed.

Lemma generate_standard_composition_witness :
  ∃ pw src',
    generate_standard 3 true false true false true sample_source
      = (Ok pw, src')
    ∧ Z.of_nat (List.length pw) = 8%Z
    ∧ (∃ c, c ∈ pw ∧ c ∈ class_subset true ascii_uppercase)
    ∧ (∀ c, c ∈ pw → c ∉ ascii_lowercase)
    ∧ (∀ c, c ∈ pw → c ∉ AMBIGUOUS_CHARS).
Proof.
  destruct (generate_standard_composition 3 true false true false true
              sample_source eq_refl)
    as (pw & src' & Hrun & Hlen & _ & Hu & _ & _ & Hl & _ & _ & _ & Ha).
  exists pw, src'. repeat split; auto.
Defined.

(** C4.  [generate_standard] raises exactly when the four class flags are
    all false: the error is the validation error, and it is raised before
    anything is drawn (the entropy source is returned untouched).  For every
    other input it returns a string, whatever the requested length, which is
    clamped into 8..128. *)
Theorem generate_standard_validation
    (length : Z)
    (uppercase lowercase numbers symbols exclude_ambiguous : bool)
    (src : source) :
  match generate_standard length uppercase lowercase numbers symbols
          exclude_ambiguous src with
  | (Raise e, src') =>
      uppercase || lowercase || numbers || symbols = false
      ∧ e = ValueError (py "At least one character class must be selected.")
      ∧ src' = src
  | (Ok pw, _) =>
      uppercase || lowercase || numbers || symbols = true
      ∧ Z.of_nat (List.length pw) = clamp 8 128 length
      ∧ (8 ≤ clamp 8 128 length ≤ 128)%Z
  end.
Proof.
  destruct (uppercase || lowercase || numbers || symbols) eqn:Hsel.
  - destruct (generate_standard_shape length _ _ _ _ exclude_ambiguous
                src Hsel) as (pw & src' & -> & Hlen & _).
    repeat split; [done| |]; unfold clamp; lia.
  - destruct uppercase, lowercase, numbers, symbols; try discriminate Hsel.
    done.
Qed.

(** C10.  When the value under the key type is neither the string pin nor
    the string passphrase, [generate_password] produces its secret by
    standard generation, with the defaults 16, four times True and False for
    the fields the dict lacks, and returns the supplied type value
    unchanged. *)
Theorem generate_password_echoes_type
    (options : gmap string pyval) (t : pyval) (src : source) :
  options !! "type" = Some t →
  t ≠ PyStr (py "pin") →
  t ≠ PyStr (py "passphrase") →
  generate_password options src
  = match standard_secret options src with
    | (Ok pw, src') => (Ok {| password := pw; type := t |}, src')
    | (Raise e, src') => (Raise e, src')
    end.
Proof.
  intros Ht Hpin Hphrase.
  unfold generate_password, standard_secret, get. rewrite Ht.
  rewrite !bool_decide_eq_false_2 by done.
  unfold mbind, gen_bind, mret, gen_ret.
  destruct (lift _ src) as [[length|e] src1]; [|done].
  by destruct (generate_standard _ _ _ _ _ _ src1) as [[pw|e] src2].
Qed.

Lemma generate_password_echoes_type_witness :
  fst (generate_password
         {[ "type" := PyStr (py "banana"); "length" := PyInt 10 ]}
         sample_source)
  = Ok {| password := py "dK7FTM%07]"; type := PyStr (py "banana") |}.
Proof.
  rewrite (generate_password_echoes_type _ (PyStr (py "banana")));
    [ | by vm_compute | done | done ].
  by vm_compute.
Defined.

(** ** Draws

    What a computation takes from the entropy source, and how the source
    steers it. *)

Lemma comprehension_choice_drawn {A} (pool : list A) n src :
  pool ≠ [] →
  ∃ l src', comprehension n (choice pool) src = (Ok l, src')
            ∧ length l = n ∧ Forall (λ c, c ∈ pool) l ∧ drawn n src src'.
Proof.
  intros Hne. revert src. induction n as [|n IH]; intros src.
  - exists [], src. repeat split; [done|]. simpl. lia.
  - destruct (choice_ok pool src Hne) as (c & Hc & Hin).
    destruct (IH (advance src)) as (l & src' & Hl & Hlen & Hall & Ht & Hcur).
    exists (c :: l), src'. simpl.
    rewrite (bind_ok _ _ _ _ _ Hc), (bind_ok _ _ _ _ _ Hl).
    repeat split; [by rewrite Hlen | by constructor | done |].
    rewrite Hcur. simpl. lia.
Qed.

Lemma shuffle_drawn i (a : list N) src :
  (i < length a ∨ i = 0) →
  ∃ a' src', shuffle i a src = (Ok a', src') ∧ a' ≡ₚ a ∧ drawn i src src'.
Proof.
  revert a src. induction i as [|i IH]; intros a src Hi.
  - exists a, src. repeat split; [done|]. simpl. lia.
  - destruct Hi as [Hi|]; [|done].
    destruct (randbelow_ok (S i + 1) src) as (j & Hj & Hlt); [lia|].
    destruct (swap_ok (S i) j a) as (a1 & Hs & Hp); [lia..|].
    destruct (IH a1 (advance src)) as (a' & src' & Hrun & Hp' & Ht & Hcur).
    { left. rewrite (Permutation_length Hp). lia. }
    exists a', src'. split; [|split; [by rewrite Hp', Hp|]].
    + cbn [shuffle]. rewrite (bind_ok _ _ _ _ _ Hj).
      unfold lift at 1. unfold mbind at 1, gen_bind at 1. by rewrite Hs.
    + split; [done|]. rewrite Hcur. simpl. lia.
Qed.

Section Scripted.
Context {A : Type} `{EqDecision A}.

Lemma lookup_index_of (c : A) (seq : list A) :
  c ∈ seq → seq !! index_of c seq = Some c.
Proof.
  intros Hin. unfold index_of.
  destruct (list_find_elem_of (λ x, x = c) seq c Hin eq_refl) as [[i x] Hf].
  rewrite Hf. apply list_find_Some in Hf as (Hi & -> & _). done.
Qed.

(** A draw that is the position of [c] makes [choice] return [c]. *)
Lemma choice_scripted (seq : list A) (c : A) :
  c ∈ seq →
  ∀ tp cur, tp cur = index_of c seq →
    choice seq (Source tp cur) = (Ok c, Source tp (S cur)).
Proof.
  intros Hin tp cur Htp. apply lookup_index_of in Hin as Hn.
  pose proof (lookup_lt_Some _ _ _ Hn) as Hlt.
  destruct seq as [|x seq]; [done|].
  unfold choice, mbind, gen_bind, randbelow. cbn [length tape cursor].
  rewrite Htp, Nat.mod_small by (simpl in Hlt; lia). by rewrite Hn.
Qed.

(** Draws that are the positions of the elements of [l] make the
    comprehension return [l]. *)
Lemma comprehension_scripted (pool l : list A) :
  Forall (λ c, c ∈ pool) l →
  ∃ ns, length ns = length l
        ∧ ∀ tp cur, (∀ k, k < length l → tp (cur + k) = nth k ns 0) →
            comprehension (length l) (choice pool) (Source tp cur)
            = (Ok l, Source tp (cur + length l)).
Proof.
  induction 1 as [|c l Hc _ (ns & Hlen & IH)].
  - exists []. split; [done|]. intros tp cur _. simpl.
    by rewrite Nat.add_0_r.
  - exists (index_of c pool :: ns). split; [simpl; by rewrite Hlen|].
    intros tp cur Htp. cbn [length comprehension].
    unfold mbind, gen_bind, mret, gen_ret.
    rewrite (choice_scripted pool c Hc tp cur).
    + rewrite (IH tp (S cur)).
      * do 2 f_equal. lia.
      * intros k Hk. specialize (Htp (S k) ltac:(simpl; lia)).
        simpl in Htp. by rewrite <- Htp, Nat.add_succ_r.
    + specialize (Htp 0 ltac:(simpl; lia)). by rewrite Nat.add_0_r in Htp.
Qed.

(** Every list over the pool is the value of the comprehension for some
    source. *)
Lemma comprehension_reaches (pool l : list A) :
  Forall (λ c, c ∈ pool) l →
  ∃ src, (comprehension (length l) (choice pool) src).1 = Ok l.
Proof.
  intros Hl. destruct (comprehension_scripted pool l Hl) as (ns & _ & Hrun).
  exists (Source (λ k, nth k ns 0) 0). by rewrite Hrun.
Qed.

End Scripted.

(** ** PINs and passphrases *)

(** X7.  [generate_pin] returns a string of decimal digits whose length is
    the request clamped into 4..6, and draws one number per digit.  Every
    string of digits of that length is returned for some state of the
    entropy source. *)
Theorem generate_pin_clamps (length : Z) (src : source) :
  (∃ pin src',
     generate_pin length src = (Ok pin, src')
     ∧ Z.of_nat (List.length pin) = clamp 4 6 length
     ∧ (4 ≤ clamp 4 6 length ≤ 6)%Z
     ∧ Forall (λ c, c ∈ digits) pin
     ∧ drawn (List.length pin) src src')
  ∧ (∀ pin,
       Z.of_nat (List.length pin) = clamp 4 6 length →
       Forall (λ c, c ∈ digits) pin →
       ∃ src0, (generate_pin length src0).1 = Ok pin).
Proof.
  unfold generate_pin. split.
  - destruct (comprehension_choice_drawn digits
                (Z.to_nat (Z.max 4 (Z.min 6 length))) src)
      as (pin & src' & Hrun & Hlen & Hall & Hdrawn); [done|].
    exists pin, src'. rewrite Hlen. unfold clamp.
    split; [done|]. split; [lia|]. split; [lia|]. by split.
  - intros pin Hlen Hall. unfold clamp in Hlen.
    replace (Z.to_nat (Z.max 4 (Z.min 6 length))) with (List.length pin)
      by lia.
    by apply comprehension_reaches.
Qed.

Lemma split_from_part sep cur s rest :
  Forall (λ c, c ≠ sep) s →
  split_from sep cur (s ++ rest) = split_from sep (rev s ++ cur) rest.
Proof.
  intros H. revert cur. induction H as [|c s Hc _ IH]; intros cur; [done|].
  simpl. rewrite bool_decide_eq_false_2 by done.
  by rewrite IH, <- app_assoc.
Qed.

(** Parts without the separator, joined by it, split back into themselves. *)
Lemma split_join (sep : N) (parts : list pystr) :
  parts ≠ [] →
  Forall (Forall (λ c, c ≠ sep)) parts →
  split sep (join [sep] parts) = parts.
Proof.
  intros Hne H. unfold split.
  induction H as [|w ws Hw Hws IH]; [done|].
  destruct ws as [|w' ws].
  - simpl. rewrite <- (app_nil_r w) at 1. rewrite split_from_part by done.
    simpl. by rewrite app_nil_r, rev_involutive.
  - change (join [sep] (w :: w' :: ws))
      with (w ++ [sep] ++ join [sep] (w' :: ws)).
    rewrite split_from_part by done. simpl.
    rewrite bool_decide_eq_true_2 by done.
    rewrite app_nil_r, rev_involutive. f_equal. by apply IH.
Qed.

Lemma length_join (sep : pystr) (m : nat) (words : list pystr) :
  Forall (λ w, length w = m) words →
  length (join sep words) = length words * m + (length words - 1) * length sep.
Proof.
  induction 1 as [|w ws Hw Hws IH]; [done|].
  destruct ws as [|w' ws].
  - simpl. lia.
  - change (join sep (w :: w' :: ws)) with (w ++ sep ++ join sep (w' :: ws)).
    rewrite !length_app, IH, Hw. simpl. lia.
Qed.

Lemma join_chars (P : N → Prop) (sep : pystr) (words : list pystr) :
  Forall P sep → Forall (Forall P) words → Forall P (join sep words).
Proof.
  intros Hsep. induction 1 as [|w ws Hw Hws IH]; [constructor|].
  destruct ws as [|w' ws]; [done|].
  change (join sep (w :: w' :: ws)) with (w ++ sep ++ join sep (w' :: ws)).
  rewrite !Forall_app. auto.
Qed.

(** The words of the list have five lowercase letters each. *)
Lemma word_list_shape (w : pystr) :
  w ∈ WORD_LIST → length w = 5 ∧ Forall (λ c, is_lower c = true) w.
Proof.
  intros Hw.
  assert (forallb (λ w, (length w =? 5) && forallb is_lower w)
            WORD_LIST = true) as Hall by (by vm_compute).
  rewrite forallb_forall in Hall. apply list_elem_of_In, Hall in Hw.
  apply andb_true_iff in Hw as [Hlen Hlow]. split.
  - by apply Nat.eqb_eq.
  - apply Forall_forall. intros c Hc. rewrite forallb_forall in Hlow.
    by apply Hlow, list_elem_of_In.
Qed.

Lemma words_shape (words : list pystr) :
  Forall (λ w, w ∈ WORD_LIST) words →
  Forall (λ w, length w = 5) words
  ∧ Forall (Forall (λ c, is_lower c = true)) words.
Proof.
  intros Hall. split; (eapply Forall_impl; [exact Hall|]); intros w Hw;
    by apply word_list_shape.
Qed.

(** X8.  [generate_passphrase] returns words of the fixed list, as many as
    the request clamped into 3..5, joined by hyphens, and draws one number
    per word.  The phrase splits at its hyphens into the words drawn; it has
    six characters per word less one, all of them lowercase letters or
    hyphens.  Every sequence of that many words of the list is returned for
    some state of the entropy source. *)
Theorem generate_passphrase_clamps (word_count : Z) (src : source) :
  (∃ words src',
     generate_passphrase word_count src = (Ok (join (py "-") words), src')
     ∧ Z.of_nat (List.length words) = clamp 3 5 word_count
     ∧ (3 ≤ clamp 3 5 word_count ≤ 5)%Z
     ∧ Forall (λ w, w ∈ WORD_LIST) words
     ∧ split 45 (join (py "-") words) = words
     ∧ Z.of_nat (List.length (join (py "-") words))
       = (6 * clamp 3 5 word_count - 1)%Z
     ∧ Forall (λ c, is_lower c = true ∨ c = 45%N) (join (py "-") words)
     ∧ drawn (List.length words) src src')
  ∧ (∀ words,
       Z.of_nat (List.length words) = clamp 3 5 word_count →
       Forall (λ w, w ∈ WORD_LIST) words →
       ∃ src0,
         (generate_passphrase word_count src0).1 = Ok (join (py "-") words)).
Proof.
  unfold generate_passphrase. split.
  - destruct (comprehension_choice_drawn WORD_LIST
                (Z.to_nat (Z.max 3 (Z.min 5 word_count))) src)
      as (words & src' & Hrun & Hlen & Hall & Hdrawn); [done|].
    destruct (words_shape words Hall) as [H5 Hlow].
    exists words, src'. rewrite (bind_ok _ _ _ _ _ Hrun).
    split; [done|]. split; [rewrite Hlen; unfold clamp; lia|].
    split; [unfold clamp; lia|]. split; [exact Hall|]. split; [|split; [|split]].
    + apply split_join; [destruct words; [simpl in Hlen; lia | done]|].
      eapply Forall_impl; [exact Hlow|]. intros w Hw.
      eapply Forall_impl; [exact Hw|]. by intros c Hc ->.
    + rewrite (length_join _ 5) by done. rewrite Hlen. unfold clamp.
      simpl. lia.
    + apply join_chars; [by repeat constructor|].
      eapply Forall_impl; [exact Hlow|]. intros w Hw.
      eapply Forall_impl; [exact Hw|]. intros c Hc. by left.
    + by rewrite Hlen.
  - intros words Hlen Hall. unfold clamp in Hlen.
    replace (Z.to_nat (Z.max 3 (Z.min 5 word_count)))
      with (List.length words) by lia.
    destruct (comprehension_reaches WORD_LIST words Hall) as [src0 Hrun].
    exists src0. unfold mbind, gen_bind, mret, gen_ret.
    by destruct (comprehension _ _ src0) as [[l|e] s]; simpl in Hrun;
      simplify_eq.
Qed.

(** ** The structure of a standard password *)

Ltac run_filler_drawn :=
  match goal with
  | |- context [comprehension ?n (choice ?pool) ?s] =>
      let filler := fresh "filler" in
      let s' := fresh "src'" in
      let Hf := fresh "Hf" in
      let Hlen := fresh "Hlen" in
      let Hall := fresh "Hall" in
      let Hd := fresh "Hd" in
      destruct (comprehension_choice_drawn pool n s)
        as (filler & s' & Hf & Hlen & Hall & Hd); [by vm_compute|];
      rewrite Hf; cbv beta iota
  end.

Ltac run_shuffle_drawn :=
  match goal with
  | |- context [shuffle ?i ?a ?s] =>
      let pw := fresh "pw" in
      let s' := fresh "src'" in
      let Hs := fresh "Hs" in
      let Hp := fresh "Hp" in
      let Hd := fresh "Hd" in
      destruct (shuffle_drawn i a s) as (pw & s' & Hs & Hp & Hd);
        [rewrite !length_app; simpl; lia|];
      rewrite Hs
  end.

(** X9.  With a class selected, the password is a rearrangement of one
    required character per selected class, drawn from the subset of that
    class, followed by characters drawn from the pool of all selected
    subsets; at least four characters are such free draws.  For a password
    of n characters the generator draws 2n - 1 numbers: one per character
    and one per step of the shuffle. *)
Theorem generate_standard_draws
    (length : Z)
    (uppercase lowercase numbers symbols exclude_ambiguous : bool)
    (src : source) :
  uppercase || lowercase || numbers || symbols = true →
  let subsets :=
    selected_subsets uppercase lowercase numbers symbols exclude_ambiguous in
  ∃ required filler pw src',
    generate_standard length uppercase lowercase numbers symbols
      exclude_ambiguous src = (Ok pw, src')
    ∧ pw ≡ₚ required ++ filler
    ∧ Forall2 (λ c subset, c ∈ subset) required subsets
    ∧ Forall (λ c, c ∈ concat subsets) filler
    ∧ 4 ≤ List.length filler
    ∧ drawn (2 * Z.to_nat (clamp 8 128 length) - 1) src src'.
Proof.
  intros Hsel subsets. subst subsets.
  unfold generate_standard, mbind, gen_bind, mret, gen_ret, raise, lift.
  destruct uppercase, lowercase, numbers, symbols; try discriminate Hsel;
    destruct exclude_ambiguous;
    cbv zeta; cbv beta iota; repeat run_choice;
    (rewrite bool_decide_eq_false_2 by (by vm_compute));
    run_filler_drawn; run_shuffle_drawn;
    eexists _, _, _, _; (split; [reflexivity|]);
    (split; [exact Hp|]);
    (split; [unfold selected_subsets, class_subset; simpl app;
             repeat (constructor; [assumption|]); constructor|]);
    (split; [exact Hall|]);
    (split; [rewrite Hlen; simpl; lia|]);
    destruct Hd as [Ht Hcu], Hd0 as [Ht0 Hcu0];
    (split; [by rewrite Ht0, Ht|]);
    rewrite Hcu0, Hcu, !length_app, Hlen; unfold clamp; simpl; lia.
Qed.

(** Eight characters take fifteen draws. *)
Lemma generate_standard_draws_witness :
  ∃ pw src',
    generate_standard 3 true false true false true sample_source
    = (Ok pw, src')
    ∧ cursor src' = 15.
Proof.
  destruct (generate_standard_draws 3 true false true false true
              sample_source eq_refl)
    as (required & filler & pw & src' & Hrun & _ & _ & _ & _ & _ & Hcur).
  exists pw, src'. split; [exact Hrun | exact Hcur].
Defined.

(** ** The shuffle *)

Lemma perm_take_of_drop {A} (n : nat) (a b : list A) :
  b ≡ₚ a → drop n b = drop n a → take n b ≡ₚ take n a.
Proof.
  intros Hp Hd. rewrite <- (take_drop n b), <- (take_drop n a), Hd in Hp.
  by apply Permutation_app_inv_r in Hp.
Qed.

(** The loop can be steered to any arrangement that leaves the positions
    above [i] as they are: each draw is a position of the character wanted
    at the place the step fixes. *)
Lemma shuffle_scripted (i : nat) (a b : pystr) (cur : nat) :
  (i < length a ∨ i = 0) →
  b ≡ₚ a → drop (S i) b = drop (S i) a →
  ∃ js, length js = i
        ∧ ∀ tp, (∀ k, k < i → tp (cur + k) = nth k js 0) →
                shuffle i a (Source tp cur) = (Ok b, Source tp (cur + i)).
Proof.
  revert a cur. induction i as [|i IH]; intros a cur Hi Hp Hd.
  - exists []. split; [done|]. intros tp _. simpl.
    rewrite Nat.add_0_r. unfold mret, gen_ret. do 2 f_equal.
    pose proof (perm_take_of_drop 1 a b Hp Hd) as Ht.
    pose proof (Permutation_length Hp) as Hlen.
    destruct a as [|x a], b as [|y b]; try discriminate Hlen; [done|].
    simpl in Hd, Ht. rewrite !take_0 in Ht.
    apply Permutation_singleton_inj in Ht. rewrite !drop_0 in Hd. by subst.
  - destruct Hi as [Hi|]; [|done].
    assert (length b = length a) as Hlen by (by rewrite Hp).
    destruct (lookup_lt_is_Some_2 b (S i)) as [x Hx]; [lia|].
    pose proof (perm_take_of_drop (S (S i)) a b Hp Hd) as Ht.
    assert (x ∈ take (S (S i)) a) as Hin.
    { rewrite <- Ht. apply list_elem_of_lookup. exists (S i).
      rewrite lookup_take_lt by lia. done. }
    apply list_elem_of_lookup in Hin as [j Hj].
    assert (j < S (S i)) as Hjlt.
    { apply lookup_lt_Some in Hj. rewrite length_take in Hj. lia. }
    rewrite lookup_take_lt in Hj by lia.
    destruct (lookup_lt_is_Some_2 a (S i) Hi) as [ai Hai].
    set (a1 := <[j:=ai]> (<[S i:=x]> a)).
    assert (swap (S i) j a = Ok a1) as Hswap.
    { unfold swap. by rewrite Hj, Hai. }
    assert (a1 ≡ₚ a) as Hp1.
    { destruct (swap_ok (S i) j a) as (a' & Ha' & Hpa); [lia| |].
      - by apply lookup_lt_Some in Hj.
      - rewrite Hswap in Ha'. by injection Ha' as <-. }
    assert (a1 !! S i = Some x) as Hx1.
    { unfold a1. destruct (decide (j = S i)) as [->|Hne].
      - rewrite list_lookup_insert_eq by (rewrite length_insert; lia).
        congruence.
      - rewrite list_lookup_insert_ne by done.
        by rewrite list_lookup_insert_eq by lia. }
    assert (drop (S (S i)) a1 = drop (S (S i)) a) as Hd1.
    { unfold a1. rewrite !drop_insert_lt by lia. done. }
    destruct (IH a1 (S cur)) as (js & Hjs & Hrun).
    + left. rewrite (Permutation_length Hp1). lia.
    + by rewrite Hp1.
    + rewrite (drop_S _ _ _ Hx), (drop_S _ _ _ Hx1), Hd, Hd1. done.
    + exists (j :: js). split; [simpl; by rewrite Hjs|].
      intros tp Htp. cbn [shuffle].
      unfold mbind, gen_bind, lift, randbelow.
      replace (S i + 1) with (S (S i)) by lia. cbn [tape cursor].
      pose proof (Htp 0 ltac:(lia)) as H0. rewrite Nat.add_0_r in H0.
      simpl in H0. rewrite H0, (Nat.mod_small j) by lia.
      rewrite Hswap. unfold advance. cbn [tape cursor].
      rewrite Hrun.
      * do 2 f_equal. lia.
      * intros k Hk. specialize (Htp (S k) ltac:(lia)).
        simpl in Htp. by rewrite <- Htp, Nat.add_succ_r.
Qed.

(** X10.  The Fisher-Yates loop reaches every arrangement: for any
    rearrangement of the characters there is a tape of the entropy source on
    which the loop, run over the whole list, returns it, after one draw per
    position but the first. *)
Theorem shuffle_reaches_every_order (a b : pystr) (cur : nat) :
  b ≡ₚ a →
  ∃ tp, shuffle (length a - 1) a (Source tp cur)
        = (Ok b, Source tp (cur + (length a - 1))).
Proof.
  intros Hp.
  destruct (shuffle_scripted (length a - 1) a b cur) as (js & _ & Hrun).
  - destruct a; simpl; lia.
  - exact Hp.
  - rewrite !drop_ge; [done|lia|rewrite Hp; lia].
  - exists (λ n, nth (n - cur) js 0). apply Hrun. intros k _.
    f_equal. lia.
Qed.

Lemma shuffle_reaches_every_order_witness :
  ∃ tp, shuffle 2 (py "abc") (Source tp 0) = (Ok (py "cab"), Source tp 2).
Proof.
  apply (shuffle_reaches_every_order (py "abc") (py "cab") 0).
  change (99 :: 97 :: [98] ≡ₚ 97 :: 98 :: [99])%N.
  eapply perm_trans; [apply perm_swap | apply perm_skip, perm_swap].
Defined.

(** ** Every admissible password is generated *)

(** Disjoint subsets, each with a character in [b]: the characters can be
    picked at different places of [b]. *)
Lemma pick_required (subsets : list pystr) (b : pystr) :
  pairwise_disjoint subsets →
  (∀ subset, subset ∈ subsets → ∃ c, c ∈ b ∧ c ∈ subset) →
  ∃ required rest,
    Forall2 (λ c subset, c ∈ subset) required subsets
    ∧ b ≡ₚ required ++ rest.
Proof.
  revert b. induction subsets as [|s ss IH]; intros b Hdis Hhas.
  - exists [], b. by split.
  - destruct Hdis as [Hs Hss].
    destruct (Hhas s ltac:(left)) as (c & Hcb & Hcs).
    apply elem_of_Permutation in Hcb as [b' Hb'].
    destruct (IH b' Hss) as (required & rest & Hreq & Hp).
    + intros s' Hs'. destruct (Hhas s' ltac:(by right)) as (c' & Hc'b & Hc's).
      exists c'. split; [|done]. rewrite Hb' in Hc'b.
      apply elem_of_cons in Hc'b as [->|]; [|done].
      rewrite Forall_forall in Hs. by destruct (Hs s' Hs' c Hcs).
    + exists (c :: required), rest. split; [by constructor|].
      by rewrite Hb', Hp.
Qed.

Lemma selected_subsets_disjoint
    (uppercase lowercase numbers symbols exclude_ambiguous : bool) :
  pairwise_disjoint
    (selected_subsets uppercase lowercase numbers symbols exclude_ambiguous).
Proof.
  destruct uppercase, lowercase, numbers, symbols, exclude_ambiguous;
    simpl; repeat split; repeat constructor;
    apply not_elem_by_compute; vm_compute; reflexivity.
Qed.

Ltac script_choice :=
  match goal with
  | H : ?c ∈ ?seq |- context [choice ?seq (Source ?tp ?cur)] =>
      rewrite (choice_scripted seq c H tp cur eq_refl); cbv beta iota
  end.

Ltac pick_choices :=
  repeat match goal with
         | H : Forall2 _ _ (_ :: _) |- _ =>
             let c := fresh "c" in
             apply Forall2_cons_inv_r in H as (c & ? & ? & H & ->)
         | H : Forall2 _ _ [] |- _ => apply Forall2_nil_inv_r in H as ->
         end.

(** X11.  Every string that has the clamped length, takes all its
    characters from the subsets of the selected classes and holds a
    character of each of them is returned by [generate_standard] for some
    state of the entropy source: the generator leaves out no password that
    its guarantees allow. *)
Theorem generate_standard_reaches
    (length : Z)
    (uppercase lowercase numbers symbols exclude_ambiguous : bool)
    (b : pystr) :
  uppercase || lowercase || numbers || symbols = true →
  let subsets :=
    selected_subsets uppercase lowercase numbers symbols exclude_ambiguous in
  Z.of_nat (List.length b) = clamp 8 128 length →
  (∀ c, c ∈ b → c ∈ concat subsets) →
  (∀ subset, subset ∈ subsets → ∃ c, c ∈ b ∧ c ∈ subset) →
  ∃ src,
    (generate_standard length uppercase lowercase numbers symbols
       exclude_ambiguous src).1 = Ok b.
Proof.
  intros Hsel subsets Hlen Hpool Hhas.
  destruct (pick_required subsets b) as (required & rest & Hreq & Hp);
    [apply selected_subsets_disjoint | exact Hhas |].
  assert (Forall (λ c, c ∈ concat subsets) rest) as Hrest.
  { apply Forall_forall. intros c Hc. apply Hpool. rewrite Hp.
    apply elem_of_app. by right. }
  destruct (comprehension_scripted _ _ Hrest) as (ns & Hns & Hfill).
  destruct (shuffle_scripted (List.length (required ++ rest) - 1)
              (required ++ rest) b
              (List.length required + List.length rest))
    as (js & Hjs & Hshuffle).
  { destruct (required ++ rest); simpl; lia. }
  { exact Hp. }
  { rewrite !drop_ge; [done|lia|rewrite Hp; lia]. }
  pose proof (Permutation_length Hp) as Hlenb. rewrite length_app in Hlenb.
  exists (Source (λ k, nth k (zip_with index_of required subsets ++ ns ++ js)
                         0) 0).
  clear Hpool Hhas Hp Hrest. unfold clamp in Hlen.
  subst subsets. unfold selected_subsets, class_subset in *.
  unfold generate_standard, mbind, gen_bind, mret, gen_ret, raise, lift.
  destruct uppercase, lowercase, numbers, symbols; try discriminate Hsel;
    destruct exclude_ambiguous;
    cbn [app concat] in *; pick_choices;
    cbn [List.length app zip_with] in *;
    rewrite ?app_nil_r, ?app_assoc in Hfill;
    cbv zeta; cbv beta iota; repeat script_choice;
    (rewrite bool_decide_eq_false_2 by (by vm_compute));
    cbn [List.length app];
    match goal with
    | |- context [comprehension ?n] =>
        replace n with (List.length rest) by lia
    end;
    (rewrite Hfill
       by (intros k Hk; cbn [Nat.add nth]; apply app_nth1; lia));
    cbn [List.length app Nat.add];
    (rewrite Hshuffle
       by (intros k Hk; cbn [Nat.add nth]; rewrite app_nth2 by lia;
           f_equal; lia));
    reflexivity.
Qed.

Lemma elem_by_compute (l pool : list N) :
  forallb (λ c, bool_decide (c ∈ pool)) l = true → ∀ c, c ∈ l → c ∈ pool.
Proof.
  intros H c Hc. rewrite forallb_forall in H.
  apply list_elem_of_In, H in Hc. by apply bool_decide_eq_true_1 in Hc.
Qed.

Lemma generate_standard_reaches_witness :
  ∃ src,
    (generate_standard 8 true true true true false src).1
    = Ok (py "Aa1!Aa1!").
Proof.
  apply (generate_standard_reaches 8 true true true true false
           (py "Aa1!Aa1!")); [reflexivity | reflexivity | |].
  - apply elem_by_compute. vm_compute. reflexivity.
  - intros subset Hin. simpl in Hin.
    repeat (apply elem_of_cons in Hin as [-> | Hin]);
      [exists 97%N | exists 65%N | exists 49%N | exists 33%N
      | by apply elem_of_nil in Hin]; split; by_compute.
Defined.

(** ** The dispatcher *)

(** X12.  With the type pin, [generate_password] returns a PIN and the type
    pin: digits only, as many as the value under length clamped into 4..6,
    and four when the dict has no length. *)
Theorem generate_password_pin
    (options : gmap string pyval) (n : Z) (src : source) :
  options !! "type" = Some (PyStr (py "pin")) →
  as_int (get options "length" (PyInt 4)) = Ok n →
  ∃ pin src',
    generate_password options src
    = (Ok {| password := pin; type := PyStr (py "pin") |}, src')
    ∧ Z.of_nat (length pin) = clamp 4 6 n
    ∧ Forall (λ c, c ∈ digits) pin
    ∧ (options !! "length" = None → length pin = 4).
Proof.
  intros Ht Hn.
  destruct (comprehension_choice_ok digits (Z.to_nat (Z.max 4 (Z.min 6 n))) src)
    as (pin & src' & Hrun & Hlen & Hall); [done|].
  exists pin, src'. split; [|split; [|split]].
  - assert (get options "type" (PyStr (py "standard")) = PyStr (py "pin"))
      as Hget by (unfold get; by rewrite Ht).
    unfold generate_password. cbv zeta. rewrite !Hget.
    rewrite bool_decide_eq_true_2 by done.
    unfold mbind, gen_bind, mret, gen_ret, lift. rewrite Hn.
    unfold generate_pin. by rewrite Hrun.
  - rewrite Hlen. unfold clamp. lia.
  - exact Hall.
  - intros Hnone. unfold get in Hn. rewrite Hnone in Hn.
    injection Hn as <-. by rewrite Hlen.
Qed.

Lemma generate_password_pin_witness :
  ∃ pin src',
    generate_password {[ "type" := PyStr (py "pin"); "length" := PyInt 10 ]}
      sample_source
    = (Ok {| password := pin; type := PyStr (py "pin") |}, src')
    ∧ Z.of_nat (length pin) = 6%Z.
Proof.
  destruct (generate_password_pin
              {[ "type" := PyStr (py "pin"); "length" := PyInt 10 ]} 10
              sample_source)
    as (pin & src' & Hrun & Hlen & _); [by vm_compute | by vm_compute |].
  exists pin, src'. split; [exact Hrun | exact Hlen].
Defined.

(** X13.  With the type passphrase, [generate_password] returns a
    passphrase and the type passphrase: words of the list joined by
    hyphens, as many as the value under word_count clamped into 3..5, and
    four when the dict has no word_count. *)
Theorem generate_password_passphrase
    (options : gmap string pyval) (n : Z) (src : source) :
  options !! "type" = Some (PyStr (py "passphrase")) →
  as_int (get options "word_count" (PyInt 4)) = Ok n →
  ∃ words src',
    generate_password options src
    = (Ok {| password := join (py "-") words;
             type := PyStr (py "passphrase") |}, src')
    ∧ Z.of_nat (length words) = clamp 3 5 n
    ∧ Forall (λ w, w ∈ WORD_LIST) words
    ∧ (options !! "word_count" = None → length words = 4).
Proof.
  intros Ht Hn.
  destruct (comprehension_choice_ok WORD_LIST
              (Z.to_nat (Z.max 3 (Z.min 5 n))) src)
    as (words & src' & Hrun & Hlen & Hall); [done|].
  exists words, src'. split; [|split; [|split]].
  - assert (get options "type" (PyStr (py "standard"))
            = PyStr (py "passphrase"))
      as Hget by (unfold get; by rewrite Ht).
    unfold generate_password. cbv zeta. rewrite !Hget.
    rewrite bool_decide_eq_false_2 by done.
    rewrite bool_decide_eq_true_2 by done.
    unfold mbind, gen_bind, mret, gen_ret, lift. rewrite Hn.
    unfold generate_passphrase, mbind, gen_bind, mret, gen_ret.
    by rewrite Hrun.
  - rewrite Hlen. unfold clamp. lia.
  - exact Hall.
  - intros Hnone. unfold get in Hn. rewrite Hnone in Hn.
    injection Hn as <-. by rewrite Hlen.
Qed.

Lemma generate_password_passphrase_witness :
  ∃ words src',
    generate_password
      {[ "type" := PyStr (py "passphrase"); "word_count" := PyInt 8 ]}
      sample_source
    = (Ok {| password := join (py "-") words;
             type := PyStr (py "passphrase") |}, src')
    ∧ Z.of_nat (length words) = 5%Z.
Proof.
  destruct (generate_password_passphrase
              {[ "type" := PyStr (py "passphrase");
                 "word_count" := PyInt 8 ]} 8 sample_source)
    as (words & src' & Hrun & Hlen & _); [by vm_compute | by vm_compute |].
  exists words, src'. split; [exact Hrun | exact Hlen].
Defined.

(** X14.  A dict without the keys type, length and the five flags gets the
    defaults: standard generation of sixteen characters with a lowercase
    letter, an uppercase letter, a digit and a punctuation character, and
    the type standard in the result. *)
Theorem generate_password_defaults
    (options : gmap string pyval) (src : source) :
  options !! "type" = None →
  options !! "length" = None →
  options !! "uppercase" = None →
  options !! "lowercase" = None →
  options !! "numbers" = None →
  options !! "symbols" = None →
  options !! "exclude_ambiguous" = None →
  ∃ pw src',
    generate_password options src
    = (Ok {| password := pw; type := PyStr (py "standard") |}, src')
    ∧ length pw = 16
    ∧ (∃ c, c ∈ pw ∧ c ∈ ascii_lowercase)
    ∧ (∃ c, c ∈ pw ∧ c ∈ ascii_uppercase)
    ∧ (∃ c, c ∈ pw ∧ c ∈ digits)
    ∧ (∃ c, c ∈ pw ∧ c ∈ punctuation).
Proof.
  intros Ht Hl Hu Hlo Hn Hs He.
  destruct (generate_standard_shape 16 true true true true false src eq_refl)
    as (pw & src' & Hrun & Hlen & _ & Hhas).
  exists pw, src'. split; [|split].
  - unfold generate_password, get. rewrite Ht, Hl, Hu, Hlo, Hn, Hs, He.
    rewrite !bool_decide_eq_false_2 by done.
    unfold mbind, gen_bind, mret, gen_ret, lift. cbn [as_int truthy].
    by rewrite Hrun.
  - unfold clamp in Hlen. lia.
  - repeat split; apply Hhas; unfold selected_subsets, class_subset;
      set_solver.
Qed.

Lemma generate_password_defaults_witness :
  ∃ pw src',
    generate_password ∅ sample_source
    = (Ok {| password := pw; type := PyStr (py "standard") |}, src')
    ∧ length pw = 16.
Proof.
  destruct (generate_password_defaults ∅ sample_source)
    as (pw & src' & Hrun & Hlen & _); try reflexivity.
  exists pw, src'. split; [exact Hrun | exact Hlen].
Defined.

Lemma as_int_raises (v : pyval) (e : exn) :
  as_int v = Raise e →
  (v = PyNone ∨ ∃ s, v = PyStr s)
  ∧ e = TypeError (py "'<' not supported between instances of '"
                   ++ type_name v ++ py "' and 'int'").
Proof.
  destruct v; intros [= <-]; (split; [|done]); [by left | right; by eexists].
Qed.

(** X15.  [generate_password] raises in two cases only, and in both before
    anything is drawn: a TypeError when the value under length (under
    word_count for a passphrase) is None or a string, which [min] cannot
    compare with an int; and the validation error when the kind is neither
    pin nor passphrase and none of the four class flags is true.  In every
    other case it returns the type it looked up and a secret of 4 to 128
    characters. *)
Theorem generate_password_errors
    (options : gmap string pyval) (src : source) :
  let pw_type := get options "type" (PyStr (py "standard")) in
  match generate_password options src with
  | (Raise e, src') =>
      src' = src
      ∧ ((∃ v, options !! (if bool_decide (pw_type = PyStr (py "passphrase"))
                           then "word_count" else "length") = Some v
               ∧ (v = PyNone ∨ ∃ s, v = PyStr s)
               ∧ e = TypeError
                       (py "'<' not supported between instances of '"
                        ++ type_name v ++ py "' and 'int'"))
         ∨ (pw_type ≠ PyStr (py "pin") ∧ pw_type ≠ PyStr (py "passphrase")
            ∧ truthy (get options "uppercase" (PyBool true)) = false
            ∧ truthy (get options "lowercase" (PyBool true)) = false
            ∧ truthy (get options "numbers" (PyBool true)) = false
            ∧ truthy (get options "symbols" (PyBool true)) = false
            ∧ e = ValueError
                    (py "At least one character class must be selected.")))
  | (Ok secret, _) =>
      type secret = pw_type ∧ 4 ≤ length (password secret) ≤ 128
  end.
Proof.
  assert (Hget : ∀ key d e, as_int (get options key (PyInt d)) = Raise e →
            ∃ v, options !! key = Some v
                 ∧ (v = PyNone ∨ ∃ s, v = PyStr s)
                 ∧ e = TypeError
                         (py "'<' not supported between instances of '"
                          ++ type_name v ++ py "' and 'int'")).
  { intros key d e. unfold get. destruct (options !! key) as [v|]; [|done].
    intros [Hv ->]%as_int_raises. by exists v. }
  cbv zeta. unfold generate_password. cbv zeta.
  unfold mbind, gen_bind, mret, gen_ret, lift.
  case_bool_decide as Hpin; [|case_bool_decide as Hphrase].
  - rewrite Hpin. rewrite (bool_decide_eq_false_2 (_ = _)) by done.
    destruct (as_int _) as [n|e] eqn:Hn.
    + destruct (comprehension_choice_ok digits
                  (Z.to_nat (Z.max 4 (Z.min 6 n))) src)
        as (pin & src' & Hrun & Hlen & _); [done|].
      unfold generate_pin. rewrite Hrun. simpl. split; [done|]. lia.
    + split; [done|]. left. by eapply Hget.
  - destruct (as_int _) as [n|e] eqn:Hn.
    + destruct (comprehension_choice_ok WORD_LIST
                  (Z.to_nat (Z.max 3 (Z.min 5 n))) src)
        as (words & src' & Hrun & Hlen & Hall); [done|].
      unfold generate_passphrase, mbind, gen_bind, mret, gen_ret.
      rewrite Hrun. simpl. split; [done|].
      rewrite (length_join _ 5) by (by apply words_shape).
      rewrite Hlen. simpl. lia.
    + split; [done|]. left. by eapply Hget.
  - destruct (as_int _) as [n|e] eqn:Hn.
    + pose proof (generate_standard_shape n
        (truthy (get options "uppercase" (PyBool true)))
        (truthy (get options "lowercase" (PyBool true)))
        (truthy (get options "numbers" (PyBool true)))
        (truthy (get options "symbols" (PyBool true)))
        (truthy (get options "exclude_ambiguous" (PyBool false))) src)
        as Hshape.
      destruct (truthy (get options "uppercase" (PyBool true))),
        (truthy (get options "lowercase" (PyBool true))),
        (truthy (get options "numbers" (PyBool true))),
        (truthy (get options "symbols" (PyBool true)));
        try (destruct (Hshape eq_refl) as (pw & src' & -> & Hlen & _);
             simpl; split; [done|]; unfold clamp in Hlen; lia).
      simpl. split; [done|]. right. by repeat split.
    + split; [done|]. left. by eapply Hget.
Qed.

(** ** Generated secrets under the analyzer *)

Lemma search_flag (class : N → bool) (pw : pystr) (flag : bool) :
  (flag = true → ∃ c, c ∈ pw ∧ class c = true) →
  (flag = false → ∀ c, c ∈ pw → class c = false) →
  search class pw = flag.
Proof.
  intros Hyes Hno. rewrite search_contains. unfold contains.
  destruct flag.
  - apply bool_decide_eq_true_2, Exists_exists. by apply Hyes.
  - apply bool_decide_eq_false_2. intros (c & Hc & Hcls)%Exists_exists.
    by rewrite (Hno eq_refl c Hc) in Hcls.
Qed.

Lemma search_none (class : N → bool) (s : pystr) :
  Forall (λ c, class c = false) s → search class s = false.
Proof.
  intros H. apply (search_flag class s false); [done|].
  intros _ c Hc. by apply (proj1 (Forall_forall _ _) H).
Qed.

Lemma search_some (class : N → bool) (s : pystr) (c : N) :
  c ∈ s → class c = true → search class s = true.
Proof.
  intros Hc Hcls. apply (search_flag class s true); [|done].
  intros _. by exists c.
Qed.

(** A character of the pool is of a selected class. *)
Lemma pool_classes uppercase lowercase numbers symbols exclude_ambiguous c :
  c ∈ concat (selected_subsets uppercase lowercase numbers symbols
                exclude_ambiguous) →
  (lowercase = false → is_lower c = false)
  ∧ (uppercase = false → is_upper c = false)
  ∧ (numbers = false → is_digit c = false)
  ∧ (symbols = false → is_other c = false).
Proof.
  intros Hc.
  assert (implb (is_lower c) lowercase && implb (is_upper c) uppercase
          && implb (is_digit c) numbers && implb (is_other c) symbols = true)
    as H.
  { revert c Hc.
    destruct uppercase, lowercase, numbers, symbols, exclude_ambiguous;
      apply (forall_by_compute (λ c, _)); vm_compute; reflexivity. }
  repeat (apply andb_true_iff in H as [H ?]).
  repeat split; intros ->;
    match goal with
    | H : implb ?x false = true |- ?x = false => by destruct x
    end.
Qed.

(** The characters of each subset are of its class. *)
Lemma subset_classes exclude_ambiguous c :
  (c ∈ class_subset exclude_ambiguous ascii_lowercase → is_lower c = true)
  ∧ (c ∈ class_subset exclude_ambiguous ascii_uppercase → is_upper c = true)
  ∧ (c ∈ class_subset exclude_ambiguous digits → is_digit c = true)
  ∧ (c ∈ punctuation → is_other c = true).
Proof.
  destruct exclude_ambiguous; repeat split; revert c;
    apply forall_by_compute; vm_compute; reflexivity.
Qed.

(** X16.  The analyzer sees in a generated password exactly the classes
    that were selected: its policy flags for uppercase, lowercase, digits
    and symbols are the four generation flags, the minimum length flag is
    true, the length is the clamped request, and the character set size is
    the sum of the buckets of the selected classes.  That size is the
    number of characters of the pool the password was drawn from, except
    that it still counts the ambiguous characters when they were excluded:
    three lowercase letters, two uppercase letters and two digits. *)
Theorem generated_password_analysis
    (math : libm) (length : Z)
    (uppercase lowercase numbers symbols exclude_ambiguous : bool)
    (src : source) :
  uppercase || lowercase || numbers || symbols = true →
  ∃ pw src',
    generate_standard length uppercase lowercase numbers symbols
      exclude_ambiguous src = (Ok pw, src')
    ∧ AnalysisResult.length (analyze_password math pw) = clamp 8 128 length
    ∧ AnalysisResult.charset_size (analyze_password math pw)
      = (bucket lowercase 26 + bucket uppercase 26 + bucket numbers 10
         + bucket symbols 32)%Z
    ∧ AnalysisResult.policy (analyze_password math pw)
      = {| min_length := true; has_uppercase := uppercase;
           has_lowercase := lowercase; has_number := numbers;
           has_symbol := symbols |}
    ∧ Z.of_nat (List.length
                  (concat (selected_subsets uppercase lowercase numbers
                             symbols exclude_ambiguous)))
      = (AnalysisResult.charset_size (analyze_password math pw)
         - (if exclude_ambiguous
            then bucket lowercase 3 + bucket uppercase 2 + bucket numbers 2
            else 0))%Z.
Proof.
  intros Hsel.
  destruct (generate_standard_shape length _ _ _ _ exclude_ambiguous src Hsel)
    as (pw & src' & Hrun & Hlen & Hpool & Hhas).
  exists pw, src'. split; [exact Hrun|].
  assert (Z.of_nat (List.length
                      (concat (selected_subsets uppercase lowercase numbers
                                 symbols exclude_ambiguous)))
          = (bucket lowercase 26 + bucket uppercase 26 + bucket numbers 10
             + bucket symbols 32
             - (if exclude_ambiguous
                then bucket lowercase 3 + bucket uppercase 2
                     + bucket numbers 2
                else 0))%Z) as Hsize
    by (by destruct uppercase, lowercase, numbers, symbols,
             exclude_ambiguous; vm_compute).
  assert (search is_lower pw = lowercase) as Hl.
  { apply search_flag.
    - intros ->. destruct (Hhas (class_subset exclude_ambiguous
                                   ascii_lowercase)) as (c & Hc & Hcs).
      + unfold selected_subsets. set_solver.
      + exists c. split; [done|]. by apply subset_classes in Hcs.
    - intros E c Hc. by apply (pool_classes _ _ _ _ _ _ (Hpool c Hc)). }
  assert (search is_upper pw = uppercase) as Hu.
  { apply search_flag.
    - intros ->. destruct (Hhas (class_subset exclude_ambiguous
                                   ascii_uppercase)) as (c & Hc & Hcs).
      + unfold selected_subsets. set_solver.
      + exists c. split; [done|]. by apply subset_classes in Hcs.
    - intros E c Hc. by apply (pool_classes _ _ _ _ _ _ (Hpool c Hc)). }
  assert (search is_digit pw = numbers) as Hn.
  { apply search_flag.
    - intros ->. destruct (Hhas (class_subset exclude_ambiguous digits))
        as (c & Hc & Hcs).
      + unfold selected_subsets. set_solver.
      + exists c. split; [done|]. by apply subset_classes in Hcs.
    - intros E c Hc. by apply (pool_classes _ _ _ _ _ _ (Hpool c Hc)). }
  assert (search is_other pw = symbols) as Hs.
  { apply search_flag.
    - intros ->. destruct (Hhas punctuation) as (c & Hc & Hcs).
      + unfold selected_subsets. set_solver.
      + exists c. split; [done|].
        by apply (subset_classes exclude_ambiguous) in Hcs.
    - intros E c Hc. by apply (pool_classes _ _ _ _ _ _ (Hpool c Hc)). }
  assert (_get_charset_size pw
          = (bucket lowercase 26 + bucket uppercase 26 + bucket numbers 10
             + bucket symbols 32)%Z) as Hcs.
  { unfold _get_charset_size, bucket. rewrite Hl, Hu, Hn, Hs.
    destruct lowercase, uppercase, numbers, symbols; lia. }
  assert (8 ≤ clamp 8 128 length)%Z as H8 by (unfold clamp; lia).
  unfold analyze_password.
  rewrite bool_decide_eq_false_2 by (intros ->; simpl in Hlen; lia).
  cbn [AnalysisResult.length AnalysisResult.charset_size
         AnalysisResult.policy].
  rewrite Hcs, Hl, Hu, Hn, Hs, Hlen, Hsize.
  replace (8 <=? clamp 8 128 length)%Z with true
    by (symmetry; by apply Z.leb_le).
  by repeat split.
Qed.

Lemma generated_password_analysis_witness :
  ∃ pw src',
    generate_standard 12 false true true false false sample_source
    = (Ok pw, src')
    ∧ AnalysisResult.charset_size (analyze_password sample_math pw) = 36%Z
    ∧ has_uppercase (AnalysisResult.policy (analyze_password sample_math pw))
      = false.
Proof.
  destruct (generated_password_analysis sample_math 12 false true true false
              false sample_source eq_refl)
    as (pw & src' & Hrun & _ & Hsize & Hpolicy & _).
  exists pw, src'. split; [exact Hrun|].
  split; [exact Hsize | by rewrite Hpolicy].
Defined.

(** X17.  Under the analyzer a generated PIN has the character set size 10
    and the digit flag alone, never the minimum length of the policy; a
    generated passphrase has six characters per word less one, the
    character set size 58 of lowercase letters and symbols, and the flags
    for minimum length, lowercase and symbol. *)
Theorem generated_pin_and_passphrase_analysis
    (math : libm) (n : Z) (src : source) :
  (∃ pin src',
     generate_pin n src = (Ok pin, src')
     ∧ AnalysisResult.length (analyze_password math pin) = clamp 4 6 n
     ∧ AnalysisResult.charset_size (analyze_password math pin) = 10%Z
     ∧ AnalysisResult.policy (analyze_password math pin)
       = {| min_length := false; has_uppercase := false;
            has_lowercase := false; has_number := true;
            has_symbol := false |})
  ∧ (∃ phrase src',
       generate_passphrase n src = (Ok phrase, src')
       ∧ AnalysisResult.length (analyze_password math phrase)
         = (6 * clamp 3 5 n - 1)%Z
       ∧ AnalysisResult.charset_size (analyze_password math phrase) = 58%Z
       ∧ AnalysisResult.policy (analyze_password math phrase)
         = {| min_length := true; has_uppercase := false;
              has_lowercase := true; has_number := false;
              has_symbol := true |}).
Proof.
  split.
  - unfold generate_pin.
    destruct (comprehension_choice_ok digits
                (Z.to_nat (Z.max 4 (Z.min 6 n))) src)
      as (pin & src' & Hrun & Hlen & Hall); [done|].
    exists pin, src'. split; [exact Hrun|].
    assert (Forall (λ c, is_digit c = true ∧ is_lower c = false
                         ∧ is_upper c = false ∧ is_other c = false) pin)
      as Hcls.
    { eapply Forall_impl; [exact Hall|]. intros c Hc. simpl in Hc.
      pose proof (forall_by_compute
               (λ c, is_digit c && negb (is_lower c) && negb (is_upper c)
                     && negb (is_other c)) digits eq_refl c Hc) as H.
      repeat (apply andb_true_iff in H as [H ?]).
      repeat match goal with
             | H : negb _ = true |- _ => apply negb_true_iff in H
             end.
      unfold is_digit. by rewrite H, H3. }
    destruct pin as [|c pin]; [simpl in Hlen; lia|].
    assert (search is_digit (c :: pin) = true) as Hd.
    { apply (search_some _ _ c); [left|].
      by apply Forall_cons in Hcls as [(? & _) _]. }
    assert (search is_lower (c :: pin) = false) as Hl.
    { apply search_none. eapply Forall_impl; [exact Hcls|].
      by intros x (? & ? & ? & ?). }
    assert (search is_upper (c :: pin) = false) as Hu.
    { apply search_none. eapply Forall_impl; [exact Hcls|].
      by intros x (? & ? & ? & ?). }
    assert (search is_other (c :: pin) = false) as Ho.
    { apply search_none. eapply Forall_impl; [exact Hcls|].
      by intros x (? & ? & ? & ?). }
    unfold analyze_password.
    rewrite bool_decide_eq_false_2 by done.
    cbn [AnalysisResult.length AnalysisResult.charset_size
           AnalysisResult.policy].
    unfold _get_charset_size. rewrite Hl, Hu, Hd, Ho, Hlen.
    unfold clamp.
    replace (8 <=? Z.of_nat (Z.to_nat (Z.max 4 (Z.min 6 n))))%Z with false
      by (symmetry; apply Z.leb_gt; lia).
    repeat split; lia.
  - unfold generate_passphrase.
    destruct (comprehension_choice_ok WORD_LIST
                (Z.to_nat (Z.max 3 (Z.min 5 n))) src)
      as (words & src' & Hrun & Hlen & Hall); [done|].
    exists (join (py "-") words), src'.
    rewrite (bind_ok _ _ _ _ _ Hrun). split; [done|].
    destruct (words_shape words Hall) as [H5 Hlow].
    pose proof (length_join (py "-") 5 words H5) as Hjoin.
    destruct words as [|w [|w' ws]]; [simpl in Hlen; lia..|].
    set (phrase := join (py "-") (w :: w' :: ws)) in *.
    assert (phrase = w ++ py "-" ++ join (py "-") (w' :: ws)) as Hphrase
      by done.
    assert (Forall (λ c, is_lower c = true ∨ c = 45%N) phrase) as Hchars.
    { apply join_chars; [by repeat constructor|].
      eapply Forall_impl; [exact Hlow|]. intros x Hx.
      eapply Forall_impl; [exact Hx|]. intros c Hc. by left. }
    assert (search is_lower phrase = true) as Hl.
    { apply Forall_cons in Hlow as [Hw _]. apply Forall_cons in H5 as [H5 _].
      destruct w as [|c w]; [done|]. apply Forall_cons in Hw as [Hc _].
      apply (search_some _ _ c); [|done]. rewrite Hphrase. by left. }
    assert (search is_other phrase = true) as Ho.
    { apply (search_some _ _ 45%N); [|done]. rewrite Hphrase.
      apply elem_of_app. right. by left. }
    assert (search is_upper phrase = false) as Hu.
    { apply search_none. eapply Forall_impl; [exact Hchars|].
      intros c [Hc| ->]; [|done]. unfold is_lower, is_upper in *.
      apply andb_true_iff in Hc as [H1 _]. apply N.leb_le in H1.
      apply andb_false_iff. right. apply N.leb_gt. lia. }
    assert (search is_digit phrase = false) as Hd.
    { apply search_none. eapply Forall_impl; [exact Hchars|].
      intros c [Hc| ->]; [|done]. unfold is_lower, is_digit in *.
      apply andb_true_iff in Hc as [H1 _]. apply N.leb_le in H1.
      apply andb_false_iff. right. apply N.leb_gt. lia. }
    unfold analyze_password.
    rewrite bool_decide_eq_false_2
      by (intros E; rewrite E in Hjoin; simpl in Hjoin; lia).
    cbn [AnalysisResult.length AnalysisResult.charset_size
           AnalysisResult.policy].
    unfold _get_charset_size. rewrite Hl, Hu, Hd, Ho, Hjoin, Hlen.
    unfold clamp.
    replace (8 <=? _)%Z with true by (symmetry; apply Z.leb_le; simpl; lia).
    repeat split; simpl; lia.
Qed.

(* ===================================================================== *)
(** * Properties of hash_utils.py *)
(* ===================================================================== *)

(** ** Worked digests *)

Example sha1_hash_empty :
  sha1_hash [] = Ok (py "DA39A3EE5E6B4B0D3255BFEF95601890AFD80709").
Proof. by vm_compute. Qed.

Example sha1_hash_abc :
  sha1_hash (py "abc") = Ok (py "A9993E364706816ABA3E25717850C26C9CD0D89D").
Proof. by vm_compute. Qed.

(** A message of two blocks. *)
Example sha1_hash_two_blocks :
  sha1_hash (py "abcdbcdecdefdefgefghfghighijhijkijkljklmklmnlmnomnopnopq")
  = Ok (py "84983E441C3BD26EBAAE4AA1F95129E5E54670F1").
Proof. by vm_compute. Qed.

(** The euro sign takes three bytes. *)
Example encode_utf8_euro :
  encode_utf8 [0x20AC%N] = Ok [0xE2; 0x82; 0xAC]%Z.
Proof. reflexivity. Qed.

(** ** Strings *)

Lemma length_hex n x : length (hex n x) = n.
Proof.
  revert x. induction n as [|n IH]; intros x; [done|].
  simpl. rewrite length_app, IH. simpl. lia.
Qed.

Lemma hex_digit_lower x :
  (0 ≤ x < 16)%Z → hex_digit x ∈ py "0123456789abcdef".
Proof.
  intros Hx. replace x with (Z.of_nat (Z.to_nat x)) by lia.
  assert (Z.to_nat x < 16) as Hi by lia. revert Hi.
  generalize (Z.to_nat x). intros i Hi.
  do 16 (destruct i as [|i]; [by_compute|]). lia.
Qed.

Lemma hex_lower n x : Forall (λ c, c ∈ py "0123456789abcdef") (hex n x).
Proof.
  revert x. induction n as [|n IH]; intros x; [constructor|].
  simpl. apply Forall_app. split; [apply IH|].
  constructor; [|constructor]. apply hex_digit_lower.
  change 15%Z with (Z.ones 4). rewrite Z.land_ones by lia.
  apply Z.mod_pos_bound. lia.
Qed.

Lemma length_upper s : length (upper s) = length s.
Proof. apply length_map. Qed.

Lemma upper_hex s :
  Forall (λ c, c ∈ py "0123456789abcdef") s →
  Forall (λ c, is_upper_hex c = true) (upper s).
Proof.
  induction 1 as [|c s Hc _ IH]; [constructor|].
  unfold upper. simpl. constructor; [|exact IH].
  revert c Hc.
  apply (forall_by_compute
           (λ c, is_upper_hex
                   (if (97 <=? c)%N && (c <=? 122)%N then (c - 32)%N else c))).
  by vm_compute.
Qed.

(** The digest is forty uppercase hexadecimal digits. *)
Lemma hexdigest_shape h :
  length (upper (hexdigest h)) = 40
  ∧ Forall (λ c, is_upper_hex c = true) (upper (hexdigest h)).
Proof.
  destruct h as [[[[h0 h1] h2] h3] h4]. unfold hexdigest. split.
  - rewrite length_upper, !length_app, !length_hex. done.
  - apply upper_hex. rewrite !Forall_app. repeat split; apply hex_lower.
Qed.

(** Encoding succeeds exactly on the strings without surrogates. *)
Lemma encode_from_ok pos s :
  Forall (λ c, is_surrogate c = false) s → ∃ bytes, encode_from pos s = Ok bytes.
Proof.
  intros H. revert pos. induction H as [|c s Hc _ IH]; intros pos.
  - by exists [].
  - simpl. rewrite Hc. destruct (IH (S pos)) as [bytes ->]. by eexists.
Qed.

Lemma encode_from_raise pos s :
  Exists (λ c, is_surrogate c = true) s →
  ∃ msg, encode_from pos s = Raise (UnicodeEncodeError msg).
Proof.
  intros H. revert pos. induction H as [c s Hc|c s _ IH]; intros pos.
  - simpl. rewrite Hc. by eexists.
  - simpl. destruct (is_surrogate c); [by eexists|].
    destruct (IH (S pos)) as [msg ->]. by eexists.
Qed.

Lemma sha1_hash_ok text :
  Forall (λ c, is_surrogate c = false) text →
  ∃ full_hash, sha1_hash text = Ok full_hash
    ∧ length full_hash = 40
    ∧ Forall (λ c, is_upper_hex c = true) full_hash.
Proof.
  intros H. unfold sha1_hash, encode_utf8.
  destruct (encode_from_ok 0 text H) as [bytes ->].
  eexists. split; [done|]. apply hexdigest_shape.
Qed.

Lemma sha1_hash_shape text full_hash :
  sha1_hash text = Ok full_hash →
  length full_hash = 40 ∧ Forall (λ c, is_upper_hex c = true) full_hash.
Proof.
  unfold sha1_hash. destruct (encode_utf8 text); [|done].
  intros [= <-]. apply hexdigest_shape.
Qed.

(** ** The privacy contract *)

Section BreachCheckProperties.

Variable repr : pystr → pystr.
Variable net : request → http_outcome.

(** With an encodable password the checker issues the range request of the
    hash prefix, and nothing else. *)
Lemma check_breach_trace password full_hash :
  sha1_hash password = Ok full_hash →
  (run net (check_breach repr password)).1
  = [range_request (take 5 full_hash)].
Proof.
  intros H. unfold check_breach, check_breach_try. rewrite H. simpl.
  by destruct (net (range_request (take 5 full_hash))).
Qed.

(** A password that does not encode makes the checker return at once. *)
Lemma check_breach_unencodable password e :
  sha1_hash password = Raise e →
  run net (check_breach repr password) = ([], check_breach_except e).
Proof.
  intros H. unfold check_breach, check_breach_try. by rewrite H.
Qed.

(** C2, as amended.  For every password that encodes to UTF-8, that is,
    that holds no surrogate code point, [check_breach] issues exactly one
    outbound request, the GET of the range endpoint followed by the first
    five characters of the uppercase hexadecimal SHA-1 digest of the encoded
    password.  The digest has forty characters, so the full hash is not
    sent, and the request is the same for any two passwords whose digests
    share the prefix: nothing else of the password reaches the
    collaborator.  For a password that holds a surrogate the encoding
    raises, no request is issued, and the result is the network error of
    the last handler. *)
Theorem check_breach_sends_prefix_only (password : pystr) :
  (Forall (λ c, is_surrogate c = false) password →
   ∃ full_hash,
     sha1_hash password = Ok full_hash
     ∧ length full_hash = 40
     ∧ Forall (λ c, is_upper_hex c = true) full_hash
     ∧ length (take 5 full_hash) = 5
     ∧ (run net (check_breach repr password)).1
       = [range_request (take 5 full_hash)]
     ∧ url (range_request (take 5 full_hash))
       = HIBP_API_URL ++ take 5 full_hash
     ∧ ∀ password' full_hash',
         sha1_hash password' = Ok full_hash' →
         take 5 full_hash' = take 5 full_hash →
         (run net (check_breach repr password')).1
         = (run net (check_breach repr password)).1)
  ∧ (Exists (λ c, is_surrogate c = true) password →
     ∃ msg,
       sha1_hash password = Raise (UnicodeEncodeError msg)
       ∧ run net (check_breach repr password)
         = ([], failure (py "Network error: " ++ msg))).
Proof.
  split.
  - intros Henc.
    destruct (sha1_hash_ok password Henc) as (full_hash & Hh & Hlen & Hhex).
    exists full_hash. repeat split; try done.
    + rewrite length_take. lia.
    + by apply check_breach_trace.
    + intros password' full_hash' Hh' Hpre.
      by rewrite (check_breach_trace _ _ Hh'), (check_breach_trace _ _ Hh),
        Hpre.
  - intros Hsur. destruct (encode_from_raise 0 password Hsur) as [msg He].
    assert (sha1_hash password = Raise (UnicodeEncodeError msg)) as Hh
      by (unfold sha1_hash, encode_utf8; by rewrite He).
    exists msg. split; [exact Hh|]. by rewrite (check_breach_unencodable _ _ Hh).
Qed.

(** A scan that returns reports no error. *)
Lemma scan_no_error lines suffix r :
  scan repr lines suffix = Ok r → error r = None.
Proof.
  induction lines as [|line lines IH]; simpl.
  - by intros [= <-].
  - destruct (split 58 line) as [|part0 [|part1 [|? ?]]]; try exact IH.
    case_bool_decide; [|exact IH].
    destruct (py_int _ _); [|done]. by intros [= <-].
Qed.

(** The only exception of a scan is the [ValueError] of [int]. *)
Lemma py_int_raises s e : py_int repr s = Raise e → ∃ msg, e = ValueError msg.
Proof.
  unfold py_int.
  destruct (match strip_of int_space s with [] => _ | _ => _ end)
    as [? body].
  destruct (int_digits 0 false body); [case_decide|];
    intros [= <-]; by eexists.
Qed.

Lemma scan_raises lines suffix e :
  scan repr lines suffix = Raise e → ∃ msg, e = ValueError msg.
Proof.
  induction lines as [|line lines IH]; simpl; [done|].
  destruct (split 58 line) as [|part0 [|part1 [|? ?]]]; try exact IH.
  case_bool_decide; [|exact IH].
  destruct (py_int _ _) eqn:E; [done|]. intros [= <-].
  by apply py_int_raises in E.
Qed.

(** C3.  [check_breach] returns a result on every path: each exception of
    the try block is turned into a result with [breached] false and [count]
    zero.  A timeout gives the fixed timeout message, a status outside 2xx
    gives a message that ends in the status code, and every other failure
    (the transport, the encoding of the password, the conversion of a count)
    gives the network error message followed by the text of the exception.
    So whenever a result carries an error, [breached] is false and [count]
    is zero. *)
Theorem check_breach_failures_are_results (password : pystr) :
  let r := (run net (check_breach repr password)).2 in
  (error r ≠ None → breached r = false ∧ count r = 0%Z)
  ∧ (∀ e, ∃ msg, check_breach_except e = failure msg)
  ∧ match sha1_hash password with
    | Raise e => r = failure (py "Network error: " ++ exn_str e)
    | Ok full_hash =>
        match net (range_request (take 5 full_hash)) with
        | TimedOut _ =>
            r = failure (py "Request timed out. Please try again.")
        | Failed msg => r = failure (py "Network error: " ++ msg)
        | Responded status text =>
            if (200 <=? status)%Z && (status <=? 299)%Z then
              match scan repr (splitlines text) (drop 5 full_hash) with
              | Ok result => r = result ∧ error result = None
              | Raise e => r = failure (py "Network error: " ++ exn_str e)
              end
            else r = failure (py "API error: " ++ str_int status)
        end
    end.
Proof.
  assert (Hexcept : ∀ e, ∃ msg, check_breach_except e = failure msg)
    by (intros []; eexists; reflexivity).
  assert (Hfail : ∀ r, (∃ msg, r = failure msg) →
            error r ≠ None → breached r = false ∧ count r = 0%Z)
    by (by intros ? [? ->]).
  cbv zeta. unfold check_breach, check_breach_try.
  destruct (sha1_hash password) as [full_hash|e] eqn:Hh; simpl.
  - destruct (net _) as [status text|msg|msg]; simpl;
      [|by repeat split..].
    unfold raise_for_status. simpl.
    destruct ((200 <=? status)%Z && (status <=? 299)%Z); simpl;
      [|by repeat split].
    destruct (scan _ _ _) as [result|e] eqn:Hscan.
    + pose proof (scan_no_error _ _ _ Hscan) as Hnone.
      split; [by rewrite Hnone|]. by repeat split.
    + split; [apply Hfail, Hexcept|]. split; [done|].
      by destruct (scan_raises _ _ _ Hscan) as [msg ->].
  - split; [apply Hfail, Hexcept|]. split; [done|].
    unfold sha1_hash in Hh. destruct (encode_utf8 password) eqn:He; [done|].
    injection Hh as <-. unfold encode_utf8 in He.
    assert (∃ msg, e0 = UnicodeEncodeError msg) as [msg ->]; [|done].
    clear -He. revert He. generalize 0. induction password as [|c s IH];
      intros pos; simpl; [done|].
    destruct (is_surrogate c); [intros [= <-]; by eexists|].
    destruct (encode_from (S pos) s) eqn:E; [done|].
    intros [= <-]. by apply (IH (S pos)).
Qed.

End BreachCheckProperties.

Lemma check_breach_sends_prefix_only_witness :
  (run (λ _, TimedOut []) (check_breach repr_quoted (py "password"))).1
  = [range_request (py "5BAA6")].
Proof.
  destruct (proj1 (check_breach_sends_prefix_only repr_quoted
                     (λ _, TimedOut []) (py "password")))
    as (full_hash & Hh & _ & _ & _ & Htrace & _).
  { by_compute. }
  vm_compute in Hh. injection Hh as <-. exact Htrace.
Defined.

(** C2 as first stated fails on a password made of one lone surrogate:
    encoding raises, the handler answers, and no request is issued. *)
Lemma check_breach_lone_surrogate :
  run (λ _, Responded 200 []) (check_breach repr_quoted [0xD800%N])
  = ([], failure (py "Network error: 'utf-8' codec can't encode character "
                  ++ py "'\ud800' in position 0: surrogates not allowed")).
Proof. by vm_compute. Qed.

(** ** Parsing the range response *)

Lemma hex_char_plain c :
  is_hex c = true →
  c ≠ 58%N ∧ isspace c = false ∧ is_linebreak c = false.
Proof.
  intros H. apply bool_decide_eq_true_1 in H.
  pose proof (forall_by_compute
    (λ c, negb (bool_decide (c = 58%N)) && negb (isspace c)
          && negb (is_linebreak c))
    (py "0123456789ABCDEFabcdef") eq_refl c H) as Hc.
  apply andb_true_iff in Hc as [Hc H3]. apply andb_true_iff in Hc as [H1 H2].
  apply negb_true_iff in H1, H2, H3.
  by apply bool_decide_eq_false_1 in H1.
Qed.

Lemma is_digit_elem c : is_digit c = true → c ∈ py "0123456789".
Proof.
  unfold is_digit. intros H. apply andb_true_iff in H as [H1 H2].
  apply N.leb_le in H1, H2.
  replace c with (48 + N.of_nat (N.to_nat (c - 48)))%N by lia.
  assert (N.to_nat (c - 48) < 10) as Hi by lia. revert Hi.
  generalize (N.to_nat (c - 48)). intros i Hi.
  do 10 (destruct i as [|i]; [by_compute|]). lia.
Qed.

Lemma digit_char_plain c :
  is_digit c = true →
  c ≠ 58%N ∧ isspace c = false ∧ is_linebreak c = false
  ∧ c ≠ 43%N ∧ c ≠ 45%N ∧ c ≠ 95%N.
Proof.
  intros H. apply is_digit_elem in H.
  pose proof (forall_by_compute
    (λ c, negb (bool_decide (c = 58%N)) && negb (isspace c)
          && negb (is_linebreak c) && negb (bool_decide (c = 43%N))
          && negb (bool_decide (c = 45%N)) && negb (bool_decide (c = 95%N)))
    (py "0123456789") eq_refl c H) as Hc.
  repeat (apply andb_true_iff in Hc as [Hc ?]).
  repeat match goal with
         | H : negb _ = true |- _ => apply negb_true_iff in H
         | H : bool_decide _ = false |- _ => apply bool_decide_eq_false_1 in H
         end.
  done.
Qed.

Lemma digits_no_space s :
  Forall (λ c, is_digit c = true) s → Forall (λ c, isspace c = false) s.
Proof.
  induction 1 as [|c s Hc _ IH]; constructor; [|done].
  by apply digit_char_plain in Hc as (_ & ? & _).
Qed.

Lemma digits_no_colon s :
  Forall (λ c, is_digit c = true) s → Forall (λ c, c ≠ 58%N) s.
Proof.
  induction 1 as [|c s Hc _ IH]; constructor; [|done].
  by apply digit_char_plain in Hc as (? & _).
Qed.

Lemma digits_no_linebreak s :
  Forall (λ c, is_digit c = true) s → Forall (λ c, is_linebreak c = false) s.
Proof.
  induction 1 as [|c s Hc _ IH]; constructor; [|done].
  by apply digit_char_plain in Hc as (_ & _ & ? & _).
Qed.

Lemma hex_no_space s :
  Forall (λ c, is_hex c = true) s → Forall (λ c, isspace c = false) s.
Proof.
  induction 1 as [|c s Hc _ IH]; constructor; [|done].
  by apply hex_char_plain in Hc as (_ & ? & _).
Qed.

Lemma hex_no_colon s :
  Forall (λ c, is_hex c = true) s → Forall (λ c, c ≠ 58%N) s.
Proof.
  induction 1 as [|c s Hc _ IH]; constructor; [|done].
  by apply hex_char_plain in Hc as (? & _).
Qed.

Lemma hex_no_linebreak s :
  Forall (λ c, is_hex c = true) s → Forall (λ c, is_linebreak c = false) s.
Proof.
  induction 1 as [|c s Hc _ IH]; constructor; [|done].
  by apply hex_char_plain in Hc as (_ & _ & ?).
Qed.

Lemma lstrip_plain space s :
  Forall (λ c, space c = false) s → lstrip space s = s.
Proof. destruct 1 as [|c s Hc _]; [done|]. simpl. by rewrite Hc. Qed.

Lemma strip_of_plain space s :
  Forall (λ c, space c = false) s → strip_of space s = s.
Proof.
  intros H. unfold strip_of. rewrite (lstrip_plain space s H).
  rewrite lstrip_plain; [apply rev_involutive|].
  apply Forall_forall. intros c Hc. apply list_elem_of_In, in_rev in Hc.
  apply list_elem_of_In in Hc. by apply (proj1 (Forall_forall _ _) H).
Qed.

Lemma strip_plain s : Forall (λ c, isspace c = false) s → strip s = s.
Proof. apply strip_of_plain. Qed.

Lemma int_space_plain s :
  Forall (λ c, isspace c = false) s → Forall (λ c, int_space c = false) s.
Proof.
  induction 1 as [|c s Hc _ IH]; constructor; [|done].
  unfold int_space. by rewrite Hc.
Qed.

Lemma split_record s d :
  Forall (λ c, c ≠ 58%N) s → Forall (λ c, c ≠ 58%N) d →
  split 58 (s ++ py ":" ++ d) = [s; d].
Proof.
  intros Hs Hd. unfold split. rewrite split_from_part by done. simpl.
  rewrite <- (app_nil_r d) at 1. rewrite split_from_part by done. simpl.
  by rewrite !app_nil_r, !rev_involutive.
Qed.

Lemma splitlines_from_line cur line rest :
  Forall (λ c, is_linebreak c = false) line →
  splitlines_from cur (line ++ rest) = splitlines_from (rev line ++ cur) rest.
Proof.
  intros H. revert cur. induction H as [|c s Hc _ IH]; intros cur; [done|].
  simpl. rewrite Hc. by rewrite IH, <- app_assoc.
Qed.

(** Lines without line breaks, none of them empty, joined by line feeds or
    by carriage return and line feed, split back into themselves. *)
Lemma splitlines_join sep lines :
  sep = [10%N] ∨ sep = [13%N; 10%N] →
  Forall (λ line, line ≠ [] ∧ Forall (λ c, is_linebreak c = false) line)
    lines →
  splitlines (join sep lines) = lines.
Proof.
  intros Hsep H. unfold splitlines.
  induction H as [|line lines [Hne Hline] Hlines IH]; [done|].
  destruct lines as [|line' lines].
  - simpl. rewrite <- (app_nil_r line) at 1.
    rewrite splitlines_from_line by done. simpl. rewrite app_nil_r.
    destruct (rev line) eqn:E.
    + apply (f_equal (@rev N)) in E. rewrite rev_involutive in E. done.
    + by rewrite <- E, rev_involutive.
  - change (join sep (line :: line' :: lines))
      with (line ++ sep ++ join sep (line' :: lines)).
    rewrite splitlines_from_line by done. rewrite app_nil_r.
    assert (∃ c rest, join sep (line' :: lines) = c :: rest)
      as (c & rest & Hj).
    { apply Forall_cons in Hlines as [[Hne' _] _].
      destruct line' as [|c l]; [done|]. destruct lines; simpl; eauto. }
    destruct Hsep as [-> | ->].
    + rewrite Hj in IH |- *. simpl. rewrite rev_involutive. f_equal.
      exact IH.
    + rewrite Hj in IH |- *. simpl. rewrite rev_involutive. f_equal.
      exact IH.
Qed.

Lemma decimal_go_digits fuel n :
  Forall (λ c, is_digit c = true) (decimal_go fuel n).
Proof.
  revert n. induction fuel as [|fuel IH]; intros n; [constructor|].
  simpl. apply Forall_app. split.
  - destruct (n <? 10)%N; [constructor | apply IH].
  - constructor; [|constructor]. unfold is_digit.
    assert (n mod 10 < 10)%N as Hm by (by apply N.mod_upper_bound).
    revert Hm. generalize (n mod 10)%N. intros m Hm.
    apply andb_true_iff. split; apply N.leb_le; lia.
Qed.

Lemma decimal_digits n : Forall (λ c, is_digit c = true) (decimal n).
Proof. apply decimal_go_digits. Qed.

Lemma decimal_nonempty n : decimal n ≠ [].
Proof. unfold decimal. simpl. by destruct (if (n <? 10)%N then _ else _). Qed.

Lemma digits_value_snoc acc s c :
  digits_value acc (s ++ [c])
  = (10 * digits_value acc s + Z.of_N (c - 48))%Z.
Proof. unfold digits_value. by rewrite fold_left_app. Qed.

Lemma decimal_go_value fuel n :
  (n < 2 ^ N.of_nat fuel)%N →
  digits_value 0 (decimal_go fuel n) = Z.of_N n.
Proof.
  revert n. induction fuel as [|fuel IH]; intros n Hn.
  - simpl in *. lia.
  - cbn [decimal_go]. rewrite digits_value_snoc.
    rewrite (N.add_comm 48), N.add_sub.
    destruct (n <? 10)%N eqn:E.
    + apply N.ltb_lt in E. rewrite N.mod_small by done. simpl. lia.
    + apply N.ltb_ge in E. rewrite IH.
      * rewrite (N.div_mod n 10) at 3 by done.
        rewrite N2Z.inj_add, N2Z.inj_mul. done.
      * rewrite Nat2N.inj_succ, N.pow_succ_r' in Hn.
        apply N.Div0.div_lt_upper_bound. lia.
Qed.

Lemma decimal_value n : digits_value 0 (decimal n) = Z.of_N n.
Proof.
  apply decimal_go_value. rewrite Nat2N.inj_succ, N2Nat.id.
  destruct n as [|p]; [done|]. apply N.log2_spec. lia.
Qed.

(** On a string of digits the literal parser computes the decimal value. *)
Lemma int_digits_value acc prev s :
  Forall (λ c, is_digit c = true) s →
  s ≠ [] ∨ prev = true →
  int_digits acc prev s = Some (digits_value acc s).
Proof.
  intros H. revert acc prev. induction H as [|c s Hc _ IH]; intros acc prev Hne.
  - destruct Hne as [Hne|Hp]; [done | by rewrite Hp].
  - simpl. rewrite Hc. apply IH. by right.
Qed.

Section ScanProperties.

Variable repr : pystr → pystr.

(** [int] reads back the decimal rendering of a count. *)
Lemma py_int_decimal n :
  length (decimal n) ≤ int_max_str_digits →
  py_int repr (decimal n) = Ok (Z.of_N n).
Proof.
  intros Hlen. unfold py_int.
  pose proof (decimal_digits n) as Hd.
  rewrite strip_of_plain by (by apply int_space_plain, digits_no_space).
  destruct (decimal n) as [|c s] eqn:E; [by apply decimal_nonempty in E|].
  pose proof Hd as Hd'. apply Forall_cons in Hd' as [Hc _].
  destruct (digit_char_plain c Hc) as (_ & _ & _ & Hplus & Hminus & _).
  rewrite !bool_decide_eq_false_2 by done.
  rewrite int_digits_value by (done || by left).
  rewrite <- E, decimal_value, E.
  rewrite decide_False; [done|].
  assert (filter (λ c, is_digit c = true) (c :: s) = c :: s) as ->; [|lia].
  clear -Hd. induction Hd as [|x l Hx _ IH]; [done|].
  by rewrite filter_cons_True, IH.
Qed.

(** The scan of well-formed records returns the first match. *)
Lemma scan_records records suffix :
  Forall well_formed records →
  scan repr (map record_line records) suffix
  = Ok match first_match suffix records with
       | Some r => found (Z.of_N r.2)
       | None => not_found
       end.
Proof.
  induction 1 as [|[s n] records [Hs Hn] _ IH]; [done|].
  simpl in Hs, Hn. cbn [map scan]. unfold record_line at 1. cbn [fst snd].
  rewrite split_record.
  - rewrite strip_plain by (by apply hex_no_space).
    unfold first_match. cbn [find fst]. case_bool_decide as Heq.
    + rewrite strip_plain by apply digits_no_space, decimal_digits.
      by rewrite py_int_decimal.
    + exact IH.
  - by apply hex_no_colon.
  - apply digits_no_colon, decimal_digits.
Qed.

Lemma record_line_plain r :
  well_formed r →
  record_line r ≠ [] ∧ Forall (λ c, is_linebreak c = false) (record_line r).
Proof.
  intros [Hs _]. unfold record_line. split.
  - by destruct (r.1).
  - rewrite !Forall_app. repeat split.
    + by apply hex_no_linebreak.
    + by repeat constructor.
    + apply digits_no_linebreak, decimal_digits.
Qed.

Variable net : request → http_outcome.

(** C7.  When the collaborator answers the range request with a 2xx status
    and a body of records SUFFIX:COUNT separated by line feeds (or by
    carriage return and line feed), [check_breach] returns the count of the
    first record whose suffix is, character for character, the 35-character
    suffix of the local digest, with [breached] true and no error; when no
    record has that suffix it returns [breached] false, [count] zero and no
    error. *)
Theorem check_breach_scans_records
    (password full_hash sep : pystr) (records : list (pystr * N))
    (status : Z) :
  sha1_hash password = Ok full_hash →
  sep = [10%N] ∨ sep = [13%N; 10%N] →
  Forall well_formed records →
  (200 ≤ status ≤ 299)%Z →
  net (range_request (take 5 full_hash))
    = Responded status (join sep (map record_line records)) →
  let suffix := drop 5 full_hash in
  let result := (run net (check_breach repr password)).2 in
  length suffix = 35
  ∧ result = match first_match suffix records with
             | Some r => found (Z.of_N r.2)
             | None => not_found
             end
  ∧ ((∃ r, r ∈ records ∧ r.1 = suffix) →
     ∃ r, r ∈ records ∧ r.1 = suffix ∧ result = found (Z.of_N r.2))
  ∧ ((∀ r, r ∈ records → r.1 ≠ suffix) → result = not_found).
Proof.
  intros Hh Hsep Hwf Hstatus Hnet suffix result.
  assert (result = match first_match suffix records with
                   | Some r => found (Z.of_N r.2)
                   | None => not_found
                   end) as Hresult.
  { subst result. unfold check_breach, check_breach_try. rewrite Hh. simpl.
    rewrite Hnet. simpl. unfold raise_for_status. simpl.
    replace ((200 <=? status)%Z && (status <=? 299)%Z) with true
      by (symmetry; apply andb_true_iff; split; apply Z.leb_le; lia).
    rewrite splitlines_join; [by rewrite scan_records|done|].
    clear -Hwf. induction Hwf as [|r records Hr _ IH]; [constructor|].
    constructor; [by apply record_line_plain | exact IH]. }
  split; [|split; [exact Hresult|split]].
  - subst suffix. rewrite length_drop.
    apply sha1_hash_shape in Hh as [-> _]. done.
  - intros (r & Hin & Heq). rewrite Hresult. unfold first_match.
    destruct (find _ records) as [r'|] eqn:E.
    + apply find_some in E as [Hin' Heq']. exists r'.
      split; [by apply list_elem_of_In|].
      split; [by apply bool_decide_eq_true_1 in Heq' | done].
    + apply list_elem_of_In in Hin.
      pose proof (find_none _ _ E r Hin) as Hno. simpl in Hno.
      by apply bool_decide_eq_false_1 in Hno.
  - intros Hnone. rewrite Hresult. unfold first_match.
    destruct (find _ records) as [r'|] eqn:E; [|done].
    apply find_some in E as [Hin' Heq'].
    apply list_elem_of_In in Hin'. apply bool_decide_eq_true_1 in Heq'.
    by apply Hnone in Hin'.
Qed.

End ScanProperties.

Lemma well_formed_by_compute records :
  forallb (λ r, forallb is_hex r.1
                && (length (decimal r.2) <=? int_max_str_digits))
    records = true →
  Forall well_formed records.
Proof.
  intros H. apply Forall_forall. intros r Hr.
  rewrite forallb_forall in H. apply list_elem_of_In, H in Hr.
  apply andb_true_iff in Hr as [Hs Hn]. split.
  - apply Forall_forall. intros c Hc. rewrite forallb_forall in Hs.
    by apply Hs, list_elem_of_In.
  - by apply Nat.leb_le.
Qed.

(** A range response in which the suffix of the digest of the word password
    appears twice, first in lowercase, then as computed with count 42. *)
Lemma check_breach_scans_records_witness :
  let records := [
    (py "0018A45C4D1DEF81644B54AB7F969B88D65", 1%N);
    (py "1e4c9b93f3f0682250b6cf8331b7ee68fd8", 7%N);
    (py "1E4C9B93F3F0682250B6CF8331B7EE68FD8", 42%N);
    (py "011053FD0102E94D6AE2F8B83D76FAF94F6", 3%N) ] in
  let body := join [13%N; 10%N] (map record_line records) in
  (run (λ _, Responded 200 body) (check_breach repr_quoted (py "password"))).2
  = found 42.
Proof.
  intros records body.
  destruct (check_breach_scans_records repr_quoted (λ _, Responded 200 body)
              (py "password") (py "5BAA61E4C9B93F3F0682250B6CF8331B7EE68FD8")
              [13%N; 10%N] records 200) as (_ & Hresult & _).
  - by vm_compute.
  - by right.
  - by apply well_formed_by_compute.
  - lia.
  - reflexivity.
  - rewrite Hresult. by vm_compute.
Defined.

(** ** The digest or the error *)

Lemma encode_from_cases (pos : nat) (s : pystr) :
  match encode_from pos s with
  | Ok _ => Forall (λ c, is_surrogate c = false) s
  | Raise e =>
      ∃ before c after,
        s = before ++ c :: after
        ∧ Forall (λ c, is_surrogate c = false) before
        ∧ is_surrogate c = true
        ∧ e = UnicodeEncodeError
                (surrogates_not_allowed c (pos + length before)
                   (pos + length before + surrogate_run (c :: after)))
  end.
Proof.
  revert pos. induction s as [|c s IH]; intros pos; [constructor|].
  cbn [encode_from]. destruct (is_surrogate c) eqn:Hc.
  - exists [], c, s. rewrite Nat.add_0_r. by repeat split.
  - specialize (IH (S pos)). destruct (encode_from (S pos) s) as [bytes|e].
    + by constructor.
    + destruct IH as (before & c' & after & -> & Hb & Hc' & ->).
      exists (c :: before), c', after. cbn [length].
      rewrite !Nat.add_succ_r. repeat split; [|done]. by constructor.
Qed.

(** X18.  [sha1_hash] returns forty characters, each a digit or a letter A
    to F, exactly for the strings without surrogates.  On any other string
    it raises the UnicodeEncodeError of the encoder, whose text names the
    first surrogate, its position, and the end of the run of surrogates it
    starts. *)
Theorem sha1_hash_digest_or_error (text : pystr) :
  match sha1_hash text with
  | Ok full_hash =>
      Forall (λ c, is_surrogate c = false) text
      ∧ length full_hash = 40
      ∧ Forall (λ c, is_upper_hex c = true) full_hash
  | Raise e =>
      ∃ before c after,
        text = before ++ c :: after
        ∧ Forall (λ c, is_surrogate c = false) before
        ∧ is_surrogate c = true
        ∧ e = UnicodeEncodeError
                (surrogates_not_allowed c (length before)
                   (length before + surrogate_run (c :: after)))
  end.
Proof.
  unfold sha1_hash, encode_utf8.
  pose proof (encode_from_cases 0 text) as H.
  destruct (encode_from 0 text) as [bytes|e]; [|exact H].
  split; [exact H|]. apply hexdigest_shape.
Qed.

(** ** Any response body *)

Section ResponseProperties.

Variable repr : pystr → pystr.

Lemma scan_skip (before rest : list pystr) (suffix : pystr) :
  Forall (λ line, record_of suffix line = None) before →
  scan repr (before ++ rest) suffix = scan repr rest suffix.
Proof.
  induction 1 as [|line before Hline _ IH]; [done|].
  cbn [app scan]. unfold record_of in Hline.
  destruct (split 58 line) as [|part0 [|part1 [|? ?]]]; try exact IH.
  by case_bool_decide.
Qed.

Lemma scan_hit (line : pystr) (after : list pystr) (suffix t : pystr) :
  record_of suffix line = Some t →
  scan repr (line :: after) suffix
  = match py_int repr t with
    | Ok n => Ok (found n)
    | Raise e => Raise e
    end.
Proof.
  unfold record_of. cbn [scan].
  destruct (split 58 line) as [|part0 [|part1 [|? ?]]]; try done.
  case_bool_decide; [|done]. by intros [= <-].
Qed.

Variable net : request → http_outcome.

(** With a 2xx response the result is that of the scan of its lines. *)
Lemma check_breach_responded password full_hash status text :
  sha1_hash password = Ok full_hash →
  (200 ≤ status ≤ 299)%Z →
  net (range_request (take 5 full_hash)) = Responded status text →
  (run net (check_breach repr password)).2
  = match scan repr (splitlines text) (drop 5 full_hash) with
    | Ok result => result
    | Raise e => check_breach_except e
    end.
Proof.
  intros Hh Hstatus Hnet. unfold check_breach, check_breach_try.
  rewrite Hh. simpl. rewrite Hnet. simpl. unfold raise_for_status. simpl.
  replace ((200 <=? status)%Z && (status <=? 299)%Z) with true
    by (symmetry; apply andb_true_iff; split; apply Z.leb_le; lia).
  done.
Qed.


End ResponseProperties.


(** ** White space and letter case *)

Lemma lstrip_spaces space (ws rest : pystr) :
  Forall (λ c, space c = true) ws →
  lstrip space (ws ++ rest) = lstrip space rest.
Proof. induction 1 as [|c ws Hc _ IH]; [done|]. simpl. by rewrite Hc. Qed.

(** White space around a text without white space is stripped. *)
Lemma strip_padded (ws1 s ws2 : pystr) :
  Forall (λ c, isspace c = true) ws1 →
  Forall (λ c, isspace c = true) ws2 →
  Forall (λ c, isspace c = false) s →
  strip (ws1 ++ s ++ ws2) = s.
Proof.
  intros H1 H2 Hs. unfold strip, strip_of.
  rewrite lstrip_spaces by done.
  destruct s as [|c s].
  - simpl. rewrite <- (app_nil_r ws2), lstrip_spaces by done. done.
  - apply Forall_cons in Hs as [Hc Hs]. cbn [app lstrip]. rewrite Hc.
    change (c :: s ++ ws2) with ((c :: s) ++ ws2). rewrite rev_app_distr.
    rewrite lstrip_spaces.
    + rewrite lstrip_plain; [apply rev_involutive|].
      apply Forall_forall. intros x Hx. apply list_elem_of_In, in_rev in Hx.
      apply list_elem_of_In, elem_of_cons in Hx as [->|Hx]; [done|].
      by apply (proj1 (Forall_forall _ _) Hs).
    + apply Forall_forall. intros x Hx. apply list_elem_of_In, in_rev in Hx.
      apply list_elem_of_In in Hx. by apply (proj1 (Forall_forall _ _) H2).
Qed.

Lemma spaces_no_colon (ws : pystr) :
  Forall (λ c, isspace c = true) ws → Forall (λ c, c ≠ 58%N) ws.
Proof.
  induction 1 as [|c ws Hc _ IH]; constructor; [|done].
  by intros ->.
Qed.

Lemma upper_hex_is_hex (s : pystr) :
  Forall (λ c, is_upper_hex c = true) s → Forall (λ c, is_hex c = true) s.
Proof.
  induction 1 as [|c s Hc _ IH]; constructor; [|done].
  apply bool_decide_eq_true_1 in Hc. revert c Hc.
  apply forall_by_compute. by vm_compute.
Qed.

Section WhiteSpaceAndCase.

Variable repr : pystr → pystr.
Variable net : request → http_outcome.

(** X20.  White space around the suffix and around the count of a record is
    ignored: when the first line of a 2xx response that is a record of the
    local suffix writes the suffix and a decimal count with white space
    before and after each of them, the result is [breached] true with that
    count. *)
Theorem check_breach_strips_white_space
    (password full_hash text : pystr) (status : Z)
    (before after : list pystr) (ws1 ws2 ws3 ws4 : pystr) (n : N) :
  sha1_hash password = Ok full_hash →
  (200 ≤ status ≤ 299)%Z →
  net (range_request (take 5 full_hash)) = Responded status text →
  let suffix := drop 5 full_hash in
  splitlines text
  = before
    ++ (ws1 ++ suffix ++ ws2 ++ py ":" ++ ws3 ++ decimal n ++ ws4) :: after →
  Forall (λ line, record_of suffix line = None) before →
  Forall (λ c, isspace c = true) (ws1 ++ ws2 ++ ws3 ++ ws4) →
  length (decimal n) ≤ int_max_str_digits →
  (run net (check_breach repr password)).2 = found (Z.of_N n).
Proof.
  intros Hh Hstatus Hnet suffix Hlines Hbefore Hws Hn.
  rewrite !Forall_app in Hws. destruct Hws as (H1 & H2 & H3 & H4).
  rewrite (check_breach_responded repr net _ _ _ _ Hh Hstatus Hnet).
  fold suffix. rewrite Hlines, scan_skip by done.
  assert (Forall (λ c, is_hex c = true) suffix) as Hhex.
  { apply upper_hex_is_hex. apply sha1_hash_shape in Hh as [_ Hh].
    unfold suffix. by apply Forall_drop. }
  erewrite scan_hit; [by rewrite py_int_decimal|].
  unfold record_of.
  replace (ws1 ++ suffix ++ ws2 ++ py ":" ++ ws3 ++ decimal n ++ ws4)
    with ((ws1 ++ suffix ++ ws2) ++ py ":" ++ (ws3 ++ decimal n ++ ws4))
    by (by rewrite <- !app_assoc).
  rewrite split_record.
  - rewrite strip_padded by (done || by apply hex_no_space).
    rewrite bool_decide_eq_true_2 by done.
    by rewrite strip_padded by (done || apply digits_no_space, decimal_digits).
  - rewrite !Forall_app. repeat split;
      [by apply spaces_no_colon | by apply hex_no_colon
      | by apply spaces_no_colon].
  - rewrite !Forall_app. repeat split;
      [by apply spaces_no_colon | apply digits_no_colon, decimal_digits
      | by apply spaces_no_colon].
Qed.

(** X21.  The comparison of suffixes is case-sensitive: when every record
    of a 2xx response writes its suffix with a character that is not a
    digit or a letter A to F, a lowercase letter for one, no record is
    reported, whatever the password. *)
Theorem check_breach_is_case_sensitive
    (password full_hash sep : pystr) (records : list (pystr * N))
    (status : Z) :
  sha1_hash password = Ok full_hash →
  sep = [10%N] ∨ sep = [13%N; 10%N] →
  Forall well_formed records →
  Forall (λ r, Exists (λ c, is_upper_hex c = false) r.1) records →
  (200 ≤ status ≤ 299)%Z →
  net (range_request (take 5 full_hash))
    = Responded status (join sep (map record_line records)) →
  (run net (check_breach repr password)).2 = not_found.
Proof.
  intros Hh Hsep Hwf Hlower Hstatus Hnet.
  rewrite (check_breach_responded repr net _ _ _ _ Hh Hstatus Hnet).
  rewrite splitlines_join; [|done|].
  - rewrite scan_records by done. unfold first_match.
    destruct (find _ records) as [r|] eqn:E; [|done].
    apply find_some in E as [Hin Heq]. apply bool_decide_eq_true_1 in Heq.
    apply list_elem_of_In in Hin.
    apply (proj1 (Forall_forall _ _) Hlower), Exists_exists in Hin
      as (c & Hc & Hnot).
    apply sha1_hash_shape in Hh as [_ Hh].
    apply (Forall_drop _ 5), Forall_forall with (x := c) in Hh;
      [congruence | by rewrite <- Heq].
  - clear -Hwf. induction Hwf as [|r records Hr _ IH]; [constructor|].
    constructor; [by apply record_line_plain | exact IH].
Qed.

End WhiteSpaceAndCase.

(** The record of the word password, indented, with a tab after the colon. *)
Lemma check_breach_strips_white_space_witness :
  let text :=
    py "0018A45C4D1DEF81644B54AB7F969B88D65:1" ++ [13; 10]%N
    ++ py "  1E4C9B93F3F0682250B6CF8331B7EE68FD8 :" ++ [9%N] ++ py "42 "
    ++ [13; 10]%N in
  (run (λ _, Responded 200 text) (check_breach repr_quoted (py "password"))).2
  = found 42.
Proof.
  intros text.
  apply (check_breach_strips_white_space repr_quoted
           (λ _, Responded 200 text) (py "password")
           (py "5BAA61E4C9B93F3F0682250B6CF8331B7EE68FD8") text 200
           [py "0018A45C4D1DEF81644B54AB7F969B88D65:1"] []
           (py "  ") (py " ") [9%N] (py " ") 42%N);
    [by vm_compute | lia | reflexivity | by vm_compute | | | ].
  - repeat constructor; by vm_compute.
  - repeat constructor; by vm_compute.
  - apply Nat.leb_le. by vm_compute.
Defined.

(** The suffix of the word password in lowercase is not found. *)
Lemma check_breach_is_case_sensitive_witness :
  let records := [(py "1e4c9b93f3f0682250b6cf8331b7ee68fd8", 42%N)] in
  let body := join [10%N] (map record_line records) in
  (run (λ _, Responded 200 body) (check_breach repr_quoted (py "password"))).2
  = not_found.
Proof.
  intros records body.
  apply (check_breach_is_case_sensitive repr_quoted
           (λ _, Responded 200 body) (py "password")
           (py "5BAA61E4C9B93F3F0682250B6CF8331B7EE68FD8") [10%N] records 200);
    [by vm_compute | by left | by apply well_formed_by_compute | | lia
    | reflexivity].
  constructor; [|constructor]. apply Exists_exists. exists 101%N.
  split; [by_compute | reflexivity].
Defined.

(* ===================================================================== *)
(** * Properties of app.py *)
(* ===================================================================== *)

Lemma model_dump_lookup (req : GenerateRequest.t) :
  get (model_dump req) "type" (PyStr (py "standard"))
  = PyStr (GenerateRequest.type req)
  ∧ (∀ d, get (model_dump req) "length" d
          = optional PyInt (GenerateRequest.length req))
  ∧ (∀ d, get (model_dump req) "word_count" d
          = optional PyInt (GenerateRequest.word_count req))
  ∧ (∀ d, get (model_dump req) "uppercase" d
          = optional PyBool (GenerateRequest.uppercase req))
  ∧ (∀ d, get (model_dump req) "lowercase" d
          = optional PyBool (GenerateRequest.lowercase req))
  ∧ (∀ d, get (model_dump req) "numbers" d
          = optional PyBool (GenerateRequest.numbers req))
  ∧ (∀ d, get (model_dump req) "symbols" d
          = optional PyBool (GenerateRequest.symbols req))
  ∧ (∀ d, get (model_dump req) "exclude_ambiguous" d
          = optional PyBool (GenerateRequest.exclude_ambiguous req)).
Proof.
  unfold get, model_dump. repeat split; intros; by simplify_map_eq.
Qed.

Lemma truthy_optional (flag : option bool) :
  truthy (optional PyBool flag) = is_set flag.
Proof. by destruct flag. Qed.

Lemma as_int_optional (size : option Z) :
  as_int (optional PyInt size)
  = match size with
    | Some n => Ok n
    | None =>
        Raise (TypeError
                 (py "'<' not supported between instances of 'NoneType' "
                  ++ py "and 'int'"))
    end.
Proof. by destruct size. Qed.

(** X22.  The generation route passes every field of the request to the
    generator, so no default of the generator applies.  When the field the
    kind reads its size from (word_count for a passphrase, length
    otherwise) is null, the route raises the TypeError of [min] before
    anything is drawn.  Otherwise it raises only the validation error, when
    the kind is neither pin nor passphrase and no class flag is true, a
    null flag counting as false; and a secret it returns has the kind of
    the request and the clamped size: 4..6 digits, 3..5 words of five
    letters with hyphens, or 8..128 characters. *)
Theorem api_generate_optional_fields
    (req : GenerateRequest.t) (src : source) :
  let kind := GenerateRequest.type req in
  match size_field req with
  | None =>
      api_generate req src
      = (Raise (TypeError
                  (py "'<' not supported between instances of 'NoneType' "
                   ++ py "and 'int'")), src)
  | Some n =>
      match api_generate req src with
      | (Ok secret, _) =>
          type secret = PyStr kind
          ∧ Z.of_nat (length (password secret))
            = (if bool_decide (kind = py "pin") then clamp 4 6 n
               else if bool_decide (kind = py "passphrase")
                    then 6 * clamp 3 5 n - 1
                    else clamp 8 128 n)%Z
      | (Raise e, src') =>
          src' = src
          ∧ e = ValueError
                  (py "At least one character class must be selected.")
          ∧ kind ≠ py "pin" ∧ kind ≠ py "passphrase"
          ∧ is_set (GenerateRequest.uppercase req)
            || is_set (GenerateRequest.lowercase req)
            || is_set (GenerateRequest.numbers req)
            || is_set (GenerateRequest.symbols req) = false
      end
  end.
Proof.
  destruct (model_dump_lookup req) as (Ht & Hl & Hw & Hu & Hlo & Hn & Hs & He).
  cbv zeta. unfold size_field, api_generate, generate_password. cbv zeta.
  rewrite Ht, !Hl, Hw, Hu, Hlo, Hn, Hs, He, !truthy_optional, !as_int_optional.
  unfold mbind, gen_bind, mret, gen_ret, lift.
  destruct (decide (GenerateRequest.type req = py "pin")) as [Hpin|Hpin].
  - rewrite Hpin. rewrite (bool_decide_eq_true_2 (PyStr _ = _)) by done.
    rewrite (bool_decide_eq_false_2 (py "pin" = _)) by done.
    rewrite (bool_decide_eq_true_2 (py "pin" = _)) by done.
    destruct (GenerateRequest.length req) as [n|]; [|done].
    destruct (comprehension_choice_ok digits
                (Z.to_nat (Z.max 4 (Z.min 6 n))) src)
      as (pin & src' & Hrun & Hlen & _); [done|].
    unfold generate_pin. rewrite Hrun. simpl. split; [done|].
    rewrite Hlen. unfold clamp. lia.
  - rewrite (bool_decide_eq_false_2 (PyStr _ = PyStr (py "pin")))
      by congruence.
    rewrite (bool_decide_eq_false_2 (_ = py "pin")) by done.
    destruct (decide (GenerateRequest.type req = py "passphrase"))
      as [Hphrase|Hphrase].
    + rewrite Hphrase. rewrite (bool_decide_eq_true_2 (PyStr _ = _)) by done.
      rewrite (bool_decide_eq_true_2 (py "passphrase" = _)) by done.
      destruct (GenerateRequest.word_count req) as [n|]; [|done].
      destruct (comprehension_choice_ok WORD_LIST
                  (Z.to_nat (Z.max 3 (Z.min 5 n))) src)
        as (words & src' & Hrun & Hlen & Hall); [done|].
      unfold generate_passphrase, mbind, gen_bind, mret, gen_ret.
      rewrite Hrun. simpl. split; [done|].
      rewrite (length_join _ 5) by (by apply words_shape).
      rewrite Hlen. unfold clamp. simpl. lia.
    + rewrite (bool_decide_eq_false_2 (PyStr _ = PyStr (py "passphrase")))
        by congruence.
      rewrite (bool_decide_eq_false_2 (_ = py "passphrase")) by done.
      destruct (GenerateRequest.length req) as [n|]; [|done].
      pose proof (generate_standard_shape n
        (is_set (GenerateRequest.uppercase req))
        (is_set (GenerateRequest.lowercase req))
        (is_set (GenerateRequest.numbers req))
        (is_set (GenerateRequest.symbols req))
        (is_set (GenerateRequest.exclude_ambiguous req)) src) as Hshape.
      destruct (is_set (GenerateRequest.uppercase req)),
        (is_set (GenerateRequest.lowercase req)),
        (is_set (GenerateRequest.numbers req)),
        (is_set (GenerateRequest.symbols req));
        try (destruct (Hshape eq_refl) as (pw & src' & -> & Hlen & _);
             simpl; by split).
      simpl. by repeat split.
Qed.

(** X23.  A generation request that gives its kind and nothing else gets
    the defaults of the request model, not those of the generator: six
    digits for a PIN (the model's length of 16, clamped), four words and so
    23 characters for a passphrase, and sixteen characters for any other
    kind. *)
Theorem api_generate_defaults (kind : pystr) (src : source) :
  ∃ secret src',
    api_generate (GenerateRequest.defaults kind) src = (Ok secret, src')
    ∧ type secret = PyStr kind
    ∧ length (password secret)
      = if bool_decide (kind = py "pin") then 6
        else if bool_decide (kind = py "passphrase") then 23 else 16.
Proof.
  destruct (model_dump_lookup (GenerateRequest.defaults kind))
    as (Ht & Hl & Hw & Hu & Hlo & Hn & Hs & He).
  unfold api_generate, generate_password. cbv zeta.
  rewrite Ht, !Hl, Hw, Hu, Hlo, Hn, Hs, He.
  unfold mbind, gen_bind, mret, gen_ret, lift, GenerateRequest.defaults.
  cbn [GenerateRequest.type GenerateRequest.length GenerateRequest.word_count
       GenerateRequest.uppercase GenerateRequest.lowercase
       GenerateRequest.numbers GenerateRequest.symbols
       GenerateRequest.exclude_ambiguous optional as_int truthy].
  destruct (decide (kind = py "pin")) as [->|Hpin].
  - rewrite (bool_decide_eq_true_2 (PyStr _ = _)) by done.
    rewrite (bool_decide_eq_true_2 (py "pin" = _)) by done.
    destruct (comprehension_choice_ok digits 6 src)
      as (pin & src' & Hrun & Hlen & _); [done|].
    unfold generate_pin. change (Z.to_nat (Z.max 4 (Z.min 6 16))) with 6.
    rewrite Hrun. by eexists _, _.
  - rewrite (bool_decide_eq_false_2 (PyStr _ = PyStr (py "pin")))
      by congruence.
    rewrite (bool_decide_eq_false_2 (_ = py "pin")) by done.
    destruct (decide (kind = py "passphrase")) as [->|Hphrase].
    + rewrite (bool_decide_eq_true_2 (PyStr _ = _)) by done.
      rewrite (bool_decide_eq_true_2 (py "passphrase" = _)) by done.
      destruct (comprehension_choice_ok WORD_LIST 4 src)
        as (words & src' & Hrun & Hlen & Hall); [done|].
      unfold generate_passphrase, mbind, gen_bind, mret, gen_ret.
      change (Z.to_nat (Z.max 3 (Z.min 5 4))) with 4.
      rewrite Hrun. eexists _, _. split; [done|]. split; [done|].
      cbn [password]. rewrite (length_join _ 5) by (by apply words_shape).
      by rewrite Hlen.
    + rewrite (bool_decide_eq_false_2 (PyStr _ = PyStr (py "passphrase")))
        by congruence.
      rewrite (bool_decide_eq_false_2 (_ = py "passphrase")) by done.
      destruct (generate_standard_shape 16 true true true true false src
                  eq_refl) as (pw & src' & -> & Hlen & _).
      eexists _, _. split; [done|]. split; [done|].
      cbn [password]. unfold clamp in Hlen. lia.
Qed.

(** X24.  A request the analysis route accepts holds 1 to 256 characters,
    so the route never returns the fixed result of the empty string: the
    length is between 1 and 256, the character set size between 10 and 94,
    and the entropy is the rounded product of the length and the logarithm
    of the size. *)
Theorem api_analyze_is_never_empty (math : libm) (req : AnalyzeRequest.t) :
  AnalyzeRequest.valid req →
  let r := api_analyze math req in
  (1 ≤ AnalysisResult.length r ≤ 256)%Z
  ∧ (10 ≤ AnalysisResult.charset_size r ≤ 94)%Z
  ∧ AnalysisResult.entropy r
    = round (Float (float_of_int (AnalysisResult.length r)
                    * log2 math
                        (float_of_int (AnalysisResult.charset_size r)))) 2.
Proof.
  intros [Hmin Hmax] r. subst r. unfold api_analyze, analyze_password.
  assert (AnalyzeRequest.password req ≠ []) as Hne
    by (intros E; rewrite E in Hmin; simpl in Hmin; lia).
  rewrite bool_decide_eq_false_2 by done.
  cbn [AnalysisResult.length AnalysisResult.charset_size
         AnalysisResult.entropy].
  pose proof (charset_size_pos _ Hne) as Hpos.
  split; [lia|]. split; [done|].
  by replace (0 <? _get_charset_size _)%Z with true
    by (symmetry; apply Z.ltb_lt; lia).
Qed.

Lemma api_analyze_is_never_empty_witness :
  (10 ≤ AnalysisResult.charset_size
          (api_analyze sample_math {| AnalyzeRequest.password := py "a" |})
   ≤ 94)%Z.
Proof.
  apply (api_analyze_is_never_empty sample_math
           {| AnalyzeRequest.password := py "a" |}).
  unfold AnalyzeRequest.valid. simpl. lia.
Defined.
